(** * AdGen: the video pipeline of the MERN backend

    A shallow embedding of the JavaScript services of the backend
    (services/VideoGenerator.js, services/ImageGenerator.js and
    services/TaskManager.js) and the properties of the scene decomposer,
    the visual, clip and assembly stages, the task registry and the
    orchestrator that drives them. *)

From Stdlib Require Import ZArith QArith Ascii Sorting.Sorted.
From stdpp Require Import gmap strings list fin_maps pretty.

Local Open Scope Z_scope.

(** ** JavaScript strings

    Strings are modelled as sequences of bytes (the UTF-8 encoding of the
    JavaScript string).  Every pattern the code searches for is ASCII, so
    splitting and searching on bytes agree with the UTF-16 operations. *)
Module JSString.

(** The line feed of [split('\n')]. *)
Definition LF : string := String (ascii_of_nat 10) "".

(** [s.startsWith(p)] *)
Definition startsWith (p s : string) : bool := String.prefix p s.

(** [s.includes(p)] *)
Fixpoint includes (p s : string) : bool :=
  String.prefix p s ||
  match s with
  | EmptyString => false
  | String _ s' => includes p s'
  end.

(** [s.split(sep)] for a non-empty separator: the pieces between the
    occurrences of [sep], found from left to right without overlap.
    [skip] counts the bytes of a matched separator still to be passed. *)
Fixpoint split_go (sep : string) (skip : nat) (s : string) : list string :=
  match s with
  | EmptyString => [EmptyString]
  | String c s' =>
      match skip with
      | S k => split_go sep k s'
      | O =>
          if String.prefix sep s
          then EmptyString :: split_go sep (String.length sep - 1) s'
          else match split_go sep O s' with
               | piece :: pieces => String c piece :: pieces
               | [] => [String c EmptyString]
               end
      end
  end.

Definition split (sep s : string) : list string := split_go sep O s.

(** [s.replace(/seconds?/g, '')]: every match of the pattern, the longer
    alternative first, is removed. *)
Fixpoint removeSeconds_go (skip : nat) (s : string) : string :=
  match s with
  | EmptyString => EmptyString
  | String c s' =>
      match skip with
      | S k => removeSeconds_go k s'
      | O =>
          if String.prefix "seconds" s then removeSeconds_go 6 s'
          else if String.prefix "second" s then removeSeconds_go 5 s'
          else String c (removeSeconds_go O s')
      end
  end.

Definition removeSeconds (s : string) : string := removeSeconds_go O s.

(** String concatenation with a value that may be [undefined]:
    [undefined] is converted to the text "undefined". *)
Definition toString (v : option string) : string :=
  match v with
  | Some s => s
  | None => "undefined"
  end.

(** [String(n).padStart(2, '0')] *)
Definition padStart2 (n : nat) : string :=
  let s := pretty n in
  if Nat.ltb (String.length s) 2 then "0" +:+ s else s.

End JSString.

(** ** JavaScript numbers *)
Module JSNumber.

(** White space skipped by [parseInt] and [parseFloat] (the ASCII part
    of the StrWhiteSpaceChar production). *)
Definition isSpace (c : ascii) : bool :=
  let n := nat_of_ascii c in
  Nat.eqb n 32 || (Nat.leb 9 n && Nat.leb n 13).

Fixpoint trimStart (s : string) : string :=
  match s with
  | String c s' => if isSpace c then trimStart s' else s
  | EmptyString => EmptyString
  end.

(** The value of a digit in the given radix. *)
Definition digitValue (radix : Z) (c : ascii) : option Z :=
  let n := Z.of_nat (nat_of_ascii c) in
  let v :=
    if (48 <=? n) && (n <=? 57) then Some (n - 48)
    else if (97 <=? n) && (n <=? 122) then Some (n - 87)
    else if (65 <=? n) && (n <=? 90) then Some (n - 55)
    else None in
  match v with
  | Some d => if d <? radix then Some d else None
  | None => None
  end.

(** The longest run of digits at the head of [s]: its value continuing
    [val], the number of digits read and the rest of the string. *)
Fixpoint spanDigits (radix val : Z) (count : nat) (s : string)
  : Z * nat * string :=
  match s with
  | String c s' =>
      match digitValue radix c with
      | Some d => spanDigits radix (radix * val + d) (S count) s'
      | None => (val, count, s)
      end
  | EmptyString => (val, count, EmptyString)
  end.

(** A sign at the head of [s]: [true] for a minus. *)
Definition readSign (s : string) : bool * string :=
  match s with
  | String "-" s' => (true, s')
  | String "+" s' => (false, s')
  | _ => (false, s)
  end.

(** The result of [parseInt]: an integer, or NaN.  Integers are exact
    (a double is exact up to 2^53; beyond that the code would see the
    nearest double, which preserves the order of two integers). *)
Inductive int := NaN | Int (z : Z).

(** [parseInt(s)] with no radix argument; an [undefined] argument is
    converted to the text "undefined", which has no digit. *)
Definition parseInt (arg : option string) : int :=
  match arg with
  | None => NaN
  | Some s0 =>
      let '(neg, s1) := readSign (trimStart s0) in
      let '(radix, s2) :=
        if String.prefix "0x" s1 || String.prefix "0X" s1
        then (16, String.substring 2 (String.length s1 - 2) s1)
        else (10, s1) in
      let '(v, count, _) := spanDigits radix 0 O s2 in
      match count with
      | O => NaN
      | S _ => Int (if neg then - v else v)
      end
  end.

(** The comparator [(a, b) => a - b] as [Array.prototype.sort] reads it:
    a negative result places [a] first, a positive one [b]; zero and NaN
    (which the sort converts to +0) leave the two in place. *)
Definition sub (a b : int) : int :=
  match a, b with
  | Int x, Int y => Int (x - y)
  | _, _ => NaN
  end.

Definition isNegative (v : int) : bool :=
  match v with
  | Int z => z <? 0
  | NaN => false
  end.

(** [a <= b] as JavaScript evaluates it: false when either side is NaN. *)
Definition leb (a b : int) : bool :=
  match a, b with
  | Int x, Int y => x <=? y
  | _, _ => false
  end.

(** The arithmetic of doubles that the scene decomposer relies on: a
    zero, the addition and [parseFloat].  The decomposer only adds
    durations, so how a double rounds is left to the instance. *)
Class Arith := {
  number : Type;
  zero : number;
  add : number -> number -> number;
  parseFloat : string -> number;
}.

(** An instance with exact decimal arithmetic: finite numbers are
    rationals in lowest terms, with the two infinities and NaN.  It
    agrees with the doubles of the code where no number involved is
    rounded, as in the examples below; it is not used where a sum of
    doubles rounds (0.1 + 0.2) or overflows. *)
Inductive exact := ENaN | EInf (negative : bool) | EFin (q : Q).

Definition exact_add (a b : exact) : exact :=
  match a, b with
  | ENaN, _ | _, ENaN => ENaN
  | EInf n, EInf m => if Bool.eqb n m then EInf n else ENaN
  | EInf n, EFin _ | EFin _, EInf n => EInf n
  | EFin x, EFin y => EFin (Qred (Qplus x y))
  end.

(** The number m * 10^e. *)
Definition decimal (m e : Z) : Q :=
  if 0 <=? e then Qred (Qmake (m * 10 ^ e) 1)
  else Qred (Qmake m (Z.to_pos (10 ^ (- e)))).

(** [parseFloat(s)]: the longest prefix of the trimmed text that is a
    StrDecimalLiteral (sign, Infinity or digits with an optional
    fraction and exponent); NaN when there is none. *)
Definition exact_parseFloat (s0 : string) : exact :=
  let '(neg, s1) := readSign (trimStart s0) in
  if String.prefix "Infinity" s1 then EInf neg
  else
    let '(ip, n1, r1) := spanDigits 10 0 O s1 in
    let '(m, n2, r2) :=
      match r1 with
      | String "." r => spanDigits 10 ip O r
      | _ => (ip, O, r1)
      end in
    match (n1 + n2)%nat with
    | O => ENaN
    | S _ =>
        let e :=
          match r2 with
          | String c r =>
              if Ascii.eqb c "e" || Ascii.eqb c "E" then
                let '(eneg, r3) := readSign r in
                let '(ev, n3, _) := spanDigits 10 0 O r3 in
                match n3 with
                | O => 0
                | S _ => if eneg then - ev else ev
                end
              else 0
          | EmptyString => 0
          end in
        EFin (decimal (if neg then - m else m) (e - Z.of_nat n2))
    end.

Definition exactArith : Arith :=
  {| number := exact; zero := EFin (Qmake 0 1);
     add := exact_add; parseFloat := exact_parseFloat |}.

End JSNumber.

Import JSString JSNumber.

(** ** services/VideoGenerator.js: the scene decomposer *)
Module SceneDecomposer.
Section WithArith.
Context {A : Arith}.

(** The scene object that [parseScene] builds. *)
Record scene := {
  text : string;
  duration : number;
  scene_number : int;
  start_time : number;
  end_time : number;
}.

(** The directive that starts every description. *)
Definition realismPrefix : string :=
  "This is a high-quality scene of live film captured by camera not photo, not cartoon. Remember this. Everything of the scene(door, trees, people, etc.) is sharp and clear. This is the real scene. This is the most important thing. Like Real handsome men and beautiful women, Real Environment, The Real scene. **manequins mustn't move. People should be real and not cartoonish and overlay text should be real.** When describing a mirror, the image reflected in the mirror and the image outside must be exactly the same. description: ".

(** One turn of the loop over the lines.  The state is the array
    [scenes] and [currentTime].  No statement of the inner [try] block
    throws on a string ([parseInt] and [parseFloat] answer NaN, an
    index out of range answers [undefined]), so its [catch] clause is
    never entered and has no counterpart here. *)
Definition parseLine (st : list scene * number) (line : string)
  : list scene * number :=
  let '(scenes, currentTime) := st in
  if startsWith "SCENE" line && includes "| Duration:" line then
    let scenePart := default EmptyString (head (split ":" line)) in
    let sceneNumber := parseInt (split " " scenePart !! 1%nat) in
    let parts := split "| Duration:" line in
    match parts with
    | [part0; part1] =>
        let description :=
          realismPrefix +:+ toString (split ":" part0 !! 1%nat) in
        let durationText := part1 in
        let durationStr := removeSeconds durationText in
        let duration := parseFloat durationStr in
        let scene :=
          {| text := description;
             duration := duration;
             scene_number := sceneNumber;
             start_time := currentTime;
             end_time := add currentTime duration |} in
        (scenes ++ [scene], add currentTime duration)
    | _ => st
    end
  else st.

(** [scenes.sort((a, b) => a.scene_number - b.scene_number)].  The sort
    of an array is stable; it is modelled as the insertion sort in which
    an element moves in front of an earlier one only where the comparator
    answers a negative number.  Where no scene number is NaN the
    comparator is consistent and every stable sort returns this array. *)
Definition comparator (a b : scene) : int :=
  sub (scene_number a) (scene_number b).

Fixpoint insert (x : scene) (l : list scene) : list scene :=
  match l with
  | [] => [x]
  | y :: l' =>
      if isNegative (comparator y x) then y :: insert x l'
      else x :: y :: l'
  end.

Definition sort (l : list scene) : list scene := foldr insert [] l.

(** The second loop: start and end times recomputed in sorted order. *)
Fixpoint retime (currentTime : number) (scenes : list scene) : list scene :=
  match scenes with
  | [] => []
  | s :: rest =>
      let start := currentTime in
      {| text := text s;
         duration := duration s;
         scene_number := scene_number s;
         start_time := start;
         end_time := add start (duration s) |}
      :: retime (add currentTime (duration s)) rest
  end.

(** [parseScene(aiResponse)] on a string.  The outer [catch] (which
    returns the empty array) is entered only when [aiResponse] is not a
    string. *)
Definition parseScene (aiResponse : string) : list scene :=
  let lines := split LF aiResponse in
  let '(scenes, _) := fold_left parseLine lines ([], zero) in
  retime zero (sort scenes).

(** The order of the scene numbers, as JavaScript compares them with
    [<=], and the scenes whose number is not NaN. *)
Definition number_le (a b : scene) : Prop :=
  leb (scene_number a) (scene_number b) = true.

Definition numbered (s : scene) : Prop :=
  exists z, scene_number s = Int z.

End WithArith.
End SceneDecomposer.

Import SceneDecomposer.

(** ** Completions

    A call either returns a value or throws an [Error]; the error is
    represented by its [message]. *)
Inductive completion (X : Type) : Type :=
| Returns (x : X)
| Throws (message : string).
Arguments Returns {X} x.
Arguments Throws {X} message.

(** ** services/TaskManager.js *)
Module TaskManager.

(** The values held by the fields of a task. *)
Inductive value :=
| VString (s : string)
| VNumber (n : Z)
| VNull
| VDate (t : Z)
| VObject (fields : list (string * string)).

(** A task is an object: a finite map from field names to values.
    [this.tasks] is a [Map] from task ids to tasks. *)
Abbreviation task := (gmap string value).
Abbreviation registry := (gmap string (gmap string value)).

(** [createTask(type, data)]; [taskId] is the identifier [uuidv4()]
    returned and [now] the value of [new Date()]. *)
Definition createTask (taskId : string) (now : Z) (type : string)
    (data : value) (tasks : registry) : task * registry :=
  let t : task :=
    list_to_map
      [("id", VString taskId); ("type", VString type);
       ("status", VString "pending"); ("progress", VNumber 0);
       ("message", VString "Task created"); ("data", data);
       ("createdAt", VDate now); ("updatedAt", VDate now);
       ("error", VNull)] in
  (t, <[taskId := t]> tasks).

(** [Object.assign(task, updates, { updatedAt: new Date() })]: the
    sources are copied from left to right, a later one overriding. *)
Definition assign (t updates : task) (now : Z) : task :=
  <["updatedAt" := VDate now]> (updates ∪ t).

(** [updateTask(taskId, updates)].  The task object is updated in
    place; the registry entry is that same object. *)
Definition updateTask (now : Z) (taskId : string) (updates : task)
    (tasks : registry) : completion task * registry :=
  match tasks !! taskId with
  | None => (Throws ("Task " +:+ taskId +:+ " not found"), tasks)
  | Some t =>
      let t' := assign t updates now in
      (Returns t', <[taskId := t']> tasks)
  end.

(** [getTask(taskId)]: [undefined] for an unknown id. *)
Definition getTask (taskId : string) (tasks : registry) : option task :=
  tasks !! taskId.

End TaskManager.

(** ** The collaborators

    What the providers, the file system and the media tool answer is
    not decided by the code: it is given by a [World].  A call that
    throws answers [None] (or [false]). *)

(** How one attempt at an image ends: the image is created and saved,
    the provider throws a [TaskFailedError], or anything else fails (the
    request, or the download, which then answers [null]). *)
Inductive image_outcome := ImageSaved | TaskFailedError | OtherError.

Record World := {
  (** [process.env.OUTPUT_DIR || './output'] *)
  outputDir : string;
  (** [path.join], [path.dirname], [path.extname], [path.isAbsolute],
      [path.resolve] *)
  path_join : string -> string -> string;
  path_dirname : string -> string;
  path_extname : string -> string;
  path_isAbsolute : string -> bool;
  path_resolve : string -> string -> string;
  (** [new Date()] and [uuidv4()], by the number of such calls before *)
  clock : nat -> Z;
  uuidv4 : nat -> string;
  (** [Date.now()] as text, and the ISO time stamp of the output file
      after [replace(/[:.]/g, '-').slice(0, 19)] *)
  dateNow : string;
  timestamp : string;
  (** the chat completion that writes the script for a prompt *)
  scriptCompletion : string -> option string;
  (** attempt [k] of the image of scene [i] *)
  imageAttempt : nat -> nat -> image_outcome;
  (** the base64 text of a file read by [fs.readFileSync] *)
  readBase64 : string -> option string;
  (** the chat completion that writes the motion prompt of scene [i] *)
  motionCompletion : nat -> string -> option string;
  (** attempt [k] of the clip of scene [i]: request and download *)
  videoAttempt : nat -> nat -> bool;
  (** [fs.pathExists], [fs.writeFile], [fs.remove], [exec] *)
  pathExists : string -> bool;
  writeFile : string -> string -> bool;
  remove : string -> bool;
  exec : string -> bool;
}.

(** A value is truthy unless it is [null] or the empty string. *)
Definition truthy (v : option string) : bool :=
  match v with
  | Some s => negb (String.eqb s "")
  | None => false
  end.

(** ** services/ImageGenerator.js: the visual stage *)
Module ImageGenerator.
Section WithWorld.
Context {A : Arith} (w : World).

(** The argument of [client.textToImage.create] (model and ratio are
    constants); [referenceImages] holds the uri of the one reference,
    tagged [scene_5s_ago], when there is one. *)
Record image_request := {
  promptText : string;
  referenceImages : option string;
}.

Definition maxRetries : nat := 3.

(** The two branches of the request. *)
Definition request (prompt : string) (refImage : option string)
  : image_request :=
  if (match refImage with Some r => String.eqb r "None" | None => false end)
     || negb (truthy refImage)
  then {| promptText := prompt; referenceImages := None |}
  else {| promptText :=
            prompt +:+ "Draw different from the reference image or Draw similar to the reference image";
          referenceImages := refImage |}.

(** The loop [while (retryCount < maxRetries)], by the number
    [remaining = maxRetries - retryCount] of turns left.  It answers
    the value returned and the requests made, in order. *)
Fixpoint retryLoop (remaining retryCount : nat)
    (attempt : nat -> image_outcome) (req : image_request)
    (imagePath : string) : option string * list image_request :=
  match remaining with
  | O => (None, [])
  | S remaining' =>
      match attempt retryCount with
      | ImageSaved =>
          if truthy (Some imagePath) then (Some imagePath, [req])
          else
            match remaining' with
            | O => (None, [req])
            | S _ =>
                let '(r, reqs) :=
                  retryLoop remaining' (S retryCount) attempt req imagePath in
                (r, req :: reqs)
            end
      | TaskFailedError =>
          match remaining' with
          | O => (None, [req])
          | S _ =>
              let '(r, reqs) :=
                retryLoop remaining' (S retryCount) attempt req imagePath in
              (r, req :: reqs)
          end
      | OtherError =>
          match remaining' with
          | O => (None, [req])
          | S _ =>
              let '(r, reqs) :=
                retryLoop remaining' (S retryCount) attempt req imagePath in
              (r, req :: reqs)
          end
      end
  end.

(** [generateImageWithRunway(prompt, filename, refImage)]; [attempt]
    tells how each attempt of this call ends. *)
Definition generateImageWithRunway (attempt : nat -> image_outcome)
    (prompt : string) (filename refImage : option string)
  : option string * list image_request :=
  let name :=
    if truthy filename then default EmptyString filename
    else "image_" +:+ dateNow w +:+ ".png" in
  retryLoop maxRetries 0 attempt (request prompt refImage)
    (path_join w (outputDir w) name).

Fixpoint toLowerCase (s : string) : string :=
  match s with
  | EmptyString => EmptyString
  | String c s' =>
      let n := nat_of_ascii c in
      String
        (if Nat.leb 65 n && Nat.leb n 90 then ascii_of_nat (n + 32) else c)
        (toLowerCase s')
  end.

(** [getImageAsDataUri(imagePath)] *)
Definition getImageAsDataUri (imagePath : string) : string :=
  match readBase64 w imagePath with
  | Some base64Image =>
      let ext := toLowerCase (path_extname w imagePath) in
      let contentType :=
        if String.eqb ext ".png" then "image/png"
        else if String.eqb ext ".jpg" || String.eqb ext ".jpeg"
             then "image/jpeg"
        else if String.eqb ext ".gif" then "image/gif"
        else if String.eqb ext ".webp" then "image/webp"
        else "image/png" in
      "data:" +:+ contentType +:+ ";base64," +:+ base64Image
  | None => "None"
  end.

(** What the stage did for one scene: the slot of [imagePaths] and the
    requests made for it. *)
Record visual := {
  imagePath : option string;
  requests : list image_request;
}.

(** The name of the file of scene [i]. *)
Definition imageFile (i : nat) : string :=
  "image_" +:+ padStart2 (i + 1) +:+ ".png".

(** The loop of [generateVisualsForScenes] from index [i], with the
    current [refImage].  The prompt is [scene.text]: the text of a scene
    built by [parseScene] is never empty. *)
Fixpoint visualsLoop (i : nat) (refImage : string) (scenes : list scene)
  : list visual :=
  match scenes with
  | [] => []
  | scene :: rest =>
      let baseFilename := imageFile i in
      let '(path, reqs) :=
        generateImageWithRunway (imageAttempt w i) (text scene)
          (Some baseFilename) (Some refImage) in
      let refImage' :=
        if truthy path
        then getImageAsDataUri (default EmptyString path)
        else refImage in
      {| imagePath := path; requests := reqs |}
      :: visualsLoop (S i) refImage' rest
  end.

Definition generateVisualsForScenes (scenes : list scene) : list visual :=
  visualsLoop 0 "None" scenes.

End WithWorld.
End ImageGenerator.

(** ** services/VideoGenerator.js: clip stage, assembly and orchestrator *)
Module VideoGenerator.
Section WithWorld.
Context {A : Arith} (w : World).
Import TaskManager ImageGenerator.

(** The argument of [client.imageToVideo.create] (model, ratio and
    duration are constants). *)
Record video_request := {
  promptImage : string;
  videoPromptText : string;
}.

(** *** The clip stage *)

(** The request of an attempt for a scene: the image read from its
    file as a data uri, and the motion prompt. *)
Definition clipRequest (image : option string) (script : string)
  : option video_request :=
  match image with
  | Some p =>
      match readBase64 w p with
      | Some base64 =>
          Some {| promptImage := "data:image/png;base64," +:+ base64;
                  videoPromptText := script |}
      | None => None
      end
  | None => None
  end.


(** The loop [while (retryCount < maxRetries && !success)] for one
    scene, by the number of turns left.  It answers what is pushed on
    [videoPaths] and, for each attempt, the request made ([None] when
    reading the image threw before any request). *)
Fixpoint clipRetryLoop (remaining retryCount : nat) (attempt : nat -> bool)
    (image : option string) (script videoPath : string)
  : list (option string) * list (option video_request) :=
  match remaining with
  | O => ([], [])
  | S remaining' =>
      let req := clipRequest image script in
      let saved :=
        match req with
        | Some _ => attempt retryCount && truthy (Some videoPath)
        | None => false
        end in
      if saved then ([Some videoPath], [req])
      else
        match remaining' with
        | O => ([None], [req])
        | S _ =>
            let '(pushed, reqs) :=
              clipRetryLoop remaining' (S retryCount) attempt image script
                videoPath in
            (pushed, req :: reqs)
        end
  end.

(** The name of the file of the clip of scene [i]. *)
Definition videoFile (i : nat) : string :=
  "video_" +:+ padStart2 (i + 1) +:+ ".mp4".

(** The loop over the scenes from index [i]. *)
Fixpoint clipsLoop (i : nat) (videoScripts : list string)
    (imagePaths : list (option string))
  : list (option string) * list (list (option video_request)) :=
  match videoScripts with
  | [] => ([], [])
  | script :: rest =>
      let '(pushed, reqs) :=
        clipRetryLoop maxRetries 0 (videoAttempt w i)
          (mjoin (imagePaths !! i)) script
          (path_join w (outputDir w) (videoFile i)) in
      let '(paths, log) := clipsLoop (S i) rest imagePaths in
      (pushed ++ paths, reqs :: log)
  end.

(** [generateVideoWithRunway(videoScripts, imagePaths)]: the array
    [videoPaths] and the attempts made for each scene.  Nothing in the
    outer [try] block throws: every error of an attempt is caught by
    the inner [catch]. *)
Definition generateVideoWithRunway (videoScripts : list string)
    (imagePaths : list (option string))
  : completion (list (option string))
    * list (list (option video_request)) :=
  let '(videoPaths, log) := clipsLoop 0 videoScripts imagePaths in
  (Returns videoPaths, log).

(** *** Effects *)

(** What the orchestrator asks of its collaborators, in order. *)
Inductive effect :=
| ScriptRequest (prompt : string)
| VisualRequests (log : list (list image_request))
| MotionRequest (sceneText : string)
| ClipAttempts (log : list (list (option video_request)))
| WriteFile (path content : string)
| Exec (command : string)
| Remove (path : string).

(** The state that the calls share: the map of the task manager, the
    number of dates and identifiers drawn, the writes made to the map
    (a record kept for the properties below), the messages handed to
    the WebSocket manager and the effects so far. *)
Record state := {
  tasks : registry;
  ticks : nat;
  writes : list (string * task);
  sent : list (string * option task);
  trace : list effect;
}.

Definition M (X : Type) : Type := state -> completion X * state.

Definition ret {X} (x : X) : M X := fun st => (Returns x, st).

Definition bind {X Y} (m : M X) (k : X -> M Y) : M Y :=
  fun st =>
    match m st with
    | (Returns x, st') => k x st'
    | (Throws e, st') => (Throws e, st')
    end.

Definition throw {X} (message : string) : M X :=
  fun st => (Throws message, st).

(** [try { m } catch (error) { handler(error.message) }] *)
Definition tryCatch {X} (m : M X) (handler : string -> M X) : M X :=
  fun st =>
    match m st with
    | (Returns x, st') => (Returns x, st')
    | (Throws e, st') => handler e st'
    end.

(** The state [st] with another trace. *)
Definition with_trace (st : state) (tr : list effect) : state :=
  {| tasks := tasks st; ticks := ticks st; writes := writes st;
     sent := sent st; trace := tr |}.

Definition emit (e : effect) : M unit :=
  fun st => (Returns tt, with_trace st (trace st ++ [e])).

Notation "'let!' x ':=' m 'in' k" := (bind m (fun x => k))
  (at level 10, x name, m at level 100, k at level 200).
Notation "'run' m 'then' k" := (bind m (fun _ => k))
  (at level 10, m at level 100, k at level 200).

Fixpoint mapM {X Y} (f : X -> M Y) (l : list X) : M (list Y) :=
  match l with
  | [] => ret []
  | x :: l' =>
      let! y := f x in
      let! ys := mapM f l' in
      ret (y :: ys)
  end.

(** *** The task manager and the WebSocket manager, as called *)

Definition createTask (type : string) (data : value) : M task :=
  fun st =>
    let taskId := uuidv4 w (ticks st) in
    let '(t, reg) :=
      TaskManager.createTask taskId (clock w (S (ticks st))) type data
        (tasks st) in
    (Returns t,
     {| tasks := reg; ticks := S (S (ticks st));
        writes := writes st ++ [(taskId, t)];
        sent := sent st; trace := trace st |}).

Definition updateTask (taskId : string) (updates : task) : M task :=
  fun st =>
    match TaskManager.updateTask (clock w (ticks st)) taskId updates
            (tasks st) with
    | (Returns t, reg) =>
        (Returns t,
         {| tasks := reg; ticks := S (ticks st);
            writes := writes st ++ [(taskId, t)];
            sent := sent st; trace := trace st |})
    | (Throws e, _) => (Throws e, st)
    end.

(** [wsManager.broadcastTaskUpdate(taskId, taskManager.getTask(taskId))]:
    the task is serialised at the call. *)
Definition broadcastTaskUpdate (taskId : string) : M unit :=
  fun st =>
    (Returns tt,
     {| tasks := tasks st; ticks := ticks st; writes := writes st;
        sent := sent st ++ [(taskId, getTask taskId (tasks st))];
        trace := trace st |}).

(** *** The assembly stage *)

Definition dquote : string := String (ascii_of_nat 34) EmptyString.
Definition backslash : string := String (ascii_of_nat 92) EmptyString.

(** [s.replace(/\\/g, '/')] *)
Fixpoint forwardSlashes (s : string) : string :=
  match s with
  | EmptyString => EmptyString
  | String c s' =>
      String (if Ascii.eqb c (ascii_of_nat 92) then "/"%char else c)
        (forwardSlashes s')
  end.

(** [lines.join('\n')] *)
Fixpoint joinLines (l : list string) : string :=
  match l with
  | [] => EmptyString
  | [x] => x
  | x :: l' => x +:+ LF +:+ joinLines l'
  end.

Definition fsWriteFile (path content : string) : M unit :=
  run emit (WriteFile path content) then
  if writeFile w path content then ret tt
  else throw "ENOENT: the file could not be written".

Definition execAsync (command : string) : M unit :=
  run emit (Exec command) then
  if exec w command then ret tt else throw "Command failed".

Definition fsRemove (path : string) : M unit :=
  run emit (Remove path) then
  if remove w path then ret tt
  else throw "EPERM: the file could not be removed".

(** The callback of [videoPaths.map] that makes a path absolute;
    [path.resolve] throws on the [undefined] that [split] answers when
    the path has no backslash. *)
Definition absolutePath (videoPath : string) : M string :=
  if path_isAbsolute w videoPath then ret videoPath
  else
    match split backslash videoPath !! 1%nat with
    | Some name => ret (path_resolve w (outputDir w) name)
    | None => throw "The paths[1] argument must be of type string"
    end.

(** [createFFmpegConcatenationCommand(videoPaths, outputPath)] *)
Definition createFFmpegConcatenationCommand (videoPaths : list string)
    (outputPath : string) : M string :=
  match videoPaths with
  | [videoPath] =>
      ret ("ffmpeg -i " +:+ dquote +:+ videoPath +:+ dquote
           +:+ " -c copy " +:+ dquote +:+ outputPath +:+ dquote)
  | _ =>
      let fileListPath :=
        path_join w (path_dirname w outputPath) "filelist.txt" in
      let! absoluteVideoPaths := mapM absolutePath videoPaths in
      let fileListContent :=
        joinLines
          (map (fun videoPath => "file '" +:+ forwardSlashes videoPath +:+ "'")
             absoluteVideoPaths) in
      run fsWriteFile fileListPath fileListContent then
      ret ("ffmpeg -f concat -safe 0 -i " +:+ dquote +:+ fileListPath
           +:+ dquote +:+ " -c copy " +:+ dquote +:+ outputPath +:+ dquote)
  end.

(** The paths kept by the filter of [concatenateVideos]; [pathExists]
    answers [false] on [null]. *)
Definition validPaths (videoPaths : list (option string)) : list string :=
  omap
    (fun videoPath =>
       match videoPath with
       | Some p => if truthy videoPath && pathExists w p then Some p else None
       | None => None
       end)
    videoPaths.

(** The path of the combined video and of the manifest. *)
Definition combinedPath : string :=
  path_join w (outputDir w) ("combined_video_" +:+ timestamp w +:+ ".mp4").

Definition manifestPath : string :=
  path_join w (path_dirname w combinedPath) "filelist.txt".

(** [concatenateVideos(videoPaths)]: the path of the combined video,
    or [null]. *)
Definition concatenateVideos (videoPaths : list (option string))
  : M (option string) :=
  tryCatch
    (if Nat.eqb (length videoPaths) 0 then ret None
     else
       let validVideoPaths := validPaths videoPaths in
       if Nat.eqb (length validVideoPaths) 0 then ret None
       else
         let outputFilename := "combined_video_" +:+ timestamp w +:+ ".mp4" in
         let outputPath := path_join w (outputDir w) outputFilename in
         let! ffmpegCommand :=
           createFFmpegConcatenationCommand validVideoPaths outputPath in
         run execAsync ffmpegCommand then
         let fileListPath :=
           path_join w (path_dirname w outputPath) "filelist.txt" in
         run (if pathExists w fileListPath then fsRemove fileListPath
              else ret tt) then
         ret (Some outputPath))
    (fun _ => ret None).

(** *** The orchestrator *)

(** The object literals passed to [updateTask]. *)
Definition progressUpdate (progress : Z) (message : string) : task :=
  list_to_map
    [("progress", VNumber progress); ("message", VString message)].

Definition runningUpdate : task :=
  list_to_map
    [("status", VString "running"); ("progress", VNumber 10);
     ("message", VString "Generating video script...")].

Definition completedUpdate (videoPath : string) : task :=
  list_to_map
    [("status", VString "completed"); ("progress", VNumber 100);
     ("message", VString "Video generation completed successfully!");
     ("data", VObject [("videoPath", videoPath)])].

Definition failedUpdate (message : string) : task :=
  list_to_map
    [("status", VString "failed"); ("error", VString message)].

(** [generateScript(prompt)] *)
Definition generateScript (prompt : string) : M string :=
  run emit (ScriptRequest prompt) then
  match scriptCompletion w prompt with
  | Some content => ret content
  | None => throw "Failed to generate video script"
  end.

Definition motionPrefix : string :=
  "This is a high-quality cinematic scene captured by a professional camera, not a photo, not a cartoon. The motion is continuous and natural — no sudden appearances or disappearances of people or objects, no surreal effects. ".

(** The loop of [generate] that asks for one motion prompt per scene. *)
Fixpoint motionLoop (i : nat) (scenes : list scene) : M (list string) :=
  match scenes with
  | [] => ret []
  | scene :: rest =>
      run emit (MotionRequest (text scene)) then
      match motionCompletion w i (text scene) with
      | None => throw "The chat completion failed"
      | Some content =>
          let! videoScripts := motionLoop (S i) rest in
          ret ((motionPrefix +:+ content) :: videoScripts)
      end
  end.

(** [generate(scenes, taskId, taskManager, wsManager)] *)
Definition generate (scenes : list scene) (taskId : string)
  : M (option string) :=
  tryCatch
    (run updateTask taskId
           (progressUpdate 40 "Generating images for scenes...") then
     run broadcastTaskUpdate taskId then
     let visuals := generateVisualsForScenes w scenes in
     let imagePaths := map imagePath visuals in
     run emit (VisualRequests (map requests visuals)) then
     if Nat.eqb (length imagePaths) 0
     then throw "Failed to generate images for scenes"
     else
       let! videoScripts := motionLoop 0 scenes in
       run updateTask taskId
             (progressUpdate 60 "Generating videos from images...") then
       run broadcastTaskUpdate taskId then
       let '(clips, log) := generateVideoWithRunway videoScripts imagePaths in
       run emit (ClipAttempts log) then
       match clips with
       | Throws e => throw e
       | Returns videoPaths =>
           if Nat.ltb 0 (length videoPaths) then
             run updateTask taskId
                   (progressUpdate 80
                      "Concatenating videos with transitions...") then
             run broadcastTaskUpdate taskId then
             let! finalVideoPath := concatenateVideos videoPaths in
             ret finalVideoPath
           else throw "No videos were generated successfully"
       end)
    (fun _ => throw "Failed to generate video with RunwayML").

(** [generateVideo(prompt, taskId, taskManager, wsManager)] *)
Definition generateVideo (prompt taskId : string) : M string :=
  tryCatch
    (run updateTask taskId runningUpdate then
     run broadcastTaskUpdate taskId then
     let! scriptResponse := generateScript prompt in
     let scenes := parseScene scriptResponse in
     if Nat.eqb (length scenes) 0
     then throw "Failed to parse scenes from script"
     else
       run updateTask taskId
             (progressUpdate 30 "Script generated, creating video...") then
       run broadcastTaskUpdate taskId then
       let! videoPath := generate (take 1 scenes) taskId in
       if truthy videoPath then
         let path := default EmptyString videoPath in
         run updateTask taskId (completedUpdate path) then
         run broadcastTaskUpdate taskId then
         ret path
       else throw "Video generation failed")
    (fun message =>
       run updateTask taskId (failedUpdate message) then
       run broadcastTaskUpdate taskId then
       throw message).

(** The handler of [POST /api/generate/video] once the request is
    accepted: the task is created and the orchestrator runs in the
    background, its error logged and dropped. *)
Definition postVideo (prompt : string) : M string :=
  let! t := createTask "video" (VObject [("prompt", prompt)]) in
  let taskId :=
    match t !! "id" with
    | Some (VString id) => id
    | _ => EmptyString
    end in
  run tryCatch (run generateVideo prompt taskId then ret tt)
        (fun _ => ret tt) then
  ret taskId.

(** *** The writes of a run *)

(** A computation that leaves the registry alone: it changes the trace
    only. *)
Definition traceOnly {X} (m : M X) : Prop :=
  forall st, exists r tr, m st = (r, with_trace st tr).

(** An update of the task followed by its broadcast, and the state
    after a sequence of them. *)
Definition updateAndBroadcast (taskId : string) (updates : task) : M unit :=
  run updateTask taskId updates then broadcastTaskUpdate taskId.

Fixpoint runUpdates (taskId : string) (us : list task) (st : state) : state :=
  match us with
  | [] => st
  | u :: us' => runUpdates taskId us' (snd (updateAndBroadcast taskId u st))
  end.

(** [st'] is [st] after the updates [us] of the task, up to the trace. *)
Definition reaches (taskId : string) (st : state) (us : list task)
    (st' : state) : Prop :=
  exists tr, st' = with_trace (runUpdates taskId us st) tr.

(** The successive values of a task under a sequence of updates, the
    first of them made at the tick [tick]. *)
Fixpoint applyUpdates (tick : nat) (t : task) (us : list task) : list task :=
  match us with
  | [] => []
  | u :: us' =>
      let t' := assign t u (clock w tick) in
      t' :: applyUpdates (S tick) t' us'
  end.

(** The updates that the orchestrator makes before the last one, in
    order; the last three are those of [generate]. *)
Definition generateMilestones : list task :=
  [progressUpdate 40 "Generating images for scenes...";
   progressUpdate 60 "Generating videos from images...";
   progressUpdate 80 "Concatenating videos with transitions..."].

Definition milestones : list task :=
  runningUpdate
  :: progressUpdate 30 "Script generated, creating video..."
  :: generateMilestones.

End WithWorld.
End VideoGenerator.

(** ** Observations and examples *)
Module Examples.
Import TaskManager ImageGenerator VideoGenerator.

(** The commands handed to [exec], and the number of scenes for which
    the clip stage made attempts. *)
Definition executed (tr : list effect) : list string :=
  omap (fun e => match e with Exec c => Some c | _ => None end) tr.

Definition clipScenes (tr : list effect) : list nat :=
  omap (fun e => match e with ClipAttempts log => Some (length log) | _ => None end)
    tr.

Definition statusOf (t : task) : option string :=
  match t !! "status" with
  | Some (VString s) => Some s
  | _ => None
  end.

Definition progressOf (t : task) : option Z :=
  match t !! "progress" with
  | Some (VNumber n) => Some n
  | _ => None
  end.

Definition errorOf (t : task) : option string :=
  match t !! "error" with
  | Some (VString s) => Some s
  | _ => None
  end.

(** A list without its repetitions of the element before. *)
Fixpoint changes (l : list string) : list string :=
  match l with
  | [] => []
  | x :: l' =>
      match l' with
      | y :: _ => if String.eqb x y then changes l' else x :: changes l'
      | [] => [x]
      end
  end.

(** The script of the example scenario. *)
Definition sunriseScript : string :=
  "SCENE 1: A sunrise | Duration: 10 seconds" +:+ LF
  +:+ "SCENE 2: A sunset | Duration: 10 seconds".

(** A POSIX file system rooted at /srv/adgen. *)
Definition posix_join (dir name : string) : string := dir +:+ "/" +:+ name.

Fixpoint joinWith (sep : string) (l : list string) : string :=
  match l with
  | [] => EmptyString
  | [x] => x
  | x :: l' => x +:+ sep +:+ joinWith sep l'
  end.

Definition posix_dirname (p : string) : string :=
  let pieces := split "/" p in
  match take (length pieces - 1) pieces with
  | [] => "."
  | dirs => joinWith "/" dirs
  end.

Definition posix_extname (p : string) : string :=
  let pieces := split "." p in
  match pieces with
  | _ :: _ :: _ => "." +:+ default EmptyString (last pieces)
  | _ => EmptyString
  end.

Definition posix_isAbsolute (p : string) : bool := String.prefix "/" p.

Definition posix_resolve (dir name : string) : string :=
  if posix_isAbsolute name then name
  else "/srv/adgen/" +:+ dir +:+ "/" +:+ name.

(** A world in which the script provider answers [script], the image
    and clip attempts end as [images] and [videos] say, every file
    read is the same picture, and the file system answers [present]
    and [removable]; the media tool succeeds. *)
Definition studio (script : string) (images : nat -> nat -> image_outcome)
    (videos : nat -> nat -> bool) (present : string -> bool)
    (removable : string -> bool) : World :=
  {| outputDir := "output";
     path_join := posix_join;
     path_dirname := posix_dirname;
     path_extname := posix_extname;
     path_isAbsolute := posix_isAbsolute;
     path_resolve := posix_resolve;
     clock := Z.of_nat;
     uuidv4 := fun _ => "3f2a";
     dateNow := "1700000000000";
     timestamp := "2025-07-20T10-00-00";
     scriptCompletion := fun _ => Some script;
     imageAttempt := images;
     readBase64 := fun _ => Some "iVBORw0KGgo=";
     motionCompletion := fun _ _ => Some "The sun climbs over the sea.";
     videoAttempt := videos;
     pathExists := present;
     writeFile := fun _ _ => true;
     remove := removable;
     exec := fun _ => true |}.

(** The world in which everything succeeds, and the empty state. *)
Definition sunny (script : string) : World :=
  studio script (fun _ _ => ImageSaved) (fun _ _ => true)
    (fun p => negb (String.eqb p "output/filelist.txt")) (fun _ => true).

Definition start : state :=
  {| tasks := ∅; ticks := 0; writes := []; sent := []; trace := [] |}.

(** Three scenes, and a world in which every attempt at the image and
    at the clip of the second scene (index 1) fails. *)
Definition dayScript : string :=
  "SCENE 1: Dawn | Duration: 10 seconds" +:+ LF
  +:+ "SCENE 2: Noon | Duration: 10 seconds" +:+ LF
  +:+ "SCENE 3: Dusk | Duration: 10 seconds".

Definition dayScenes : list (scene (A:=exactArith)) := parseScene dayScript.

Definition eclipse : World :=
  studio dayScript
    (fun i _ => if Nat.eqb i 1 then OtherError else ImageSaved)
    (fun i _ => negb (Nat.eqb i 1))
    (fun p => negb (String.eqb p "output/filelist.txt")) (fun _ => true).

(** A world whose script provider answers a text without any scene,
    and the state in which a task has been created in it. *)
Definition silent : World := sunny "A poem, not a script.".

Definition submitted : state :=
  snd (createTask silent "video" (VObject [("prompt", "A day at the sea")])
         start).

(** Scripts with fields that do not parse. *)
Definition unnumberedScript : string :=
  "SCENE X: Dawn | Duration: 10 seconds" +:+ LF
  +:+ "SCENE 1: Noon | Duration: 10 seconds".

Definition shuffledScript : string :=
  "SCENE 3: Dusk | Duration: 10 seconds" +:+ LF
  +:+ "SCENE X: Dawn | Duration: 10 seconds" +:+ LF
  +:+ "SCENE 1: Noon | Duration: 10 seconds".

Definition vagueScript : string :=
  "SCENE 1: Dawn | Duration: soon" +:+ LF
  +:+ "SCENE 2: Noon | Duration: 10 seconds".


End Examples.

(** ** Vocabulary of the scene decomposer *)
Module SceneLines.

(** The lines for which [parseScene] builds a scene: they start with the
    marker, contain the delimiter, and split in two at it. *)
Definition pushes (line : string) : bool :=
  startsWith "SCENE" line && includes "| Duration:" line
  && Nat.eqb (length (split "| Duration:" line)) 2.

End SceneLines.

(** ** services/TaskManager.js: deletion and the periodic sweep *)
Module TaskSweep.
Import TaskManager.


(** The retention window of the sweep, in milliseconds. *)
Definition retention : Z := 24 * 60 * 60 * 1000.

(** [task.createdAt < cutoffTime], where [cutoffTime] is a date: both
    sides are converted to numbers.  A date is its time value, [null]
    is 0, and [undefined] and an object convert to NaN, for which the
    comparison is false.  How a string converts is left to
    [stringBefore]. *)
Definition createdBefore (stringBefore : string -> Z -> bool) (cutoff : Z)
    (t : task) : bool :=
  match t !! "createdAt" with
  | Some (VDate time) => time <? cutoff
  | Some (VNumber n) => n <? cutoff
  | Some VNull => 0 <? cutoff
  | Some (VString s) => stringBefore s cutoff
  | Some (VObject _) => false
  | None => false
  end.

(** [cleanupOldTasks()] at the time [now]: every entry whose task was
    created before the cutoff is deleted from the map. *)
Definition cleanupOldTasks (stringBefore : string -> Z -> bool) (now : Z)
    (tasks : registry) : registry :=
  let cutoffTime := now - retention in
  filter (fun entry => createdBefore stringBefore cutoffTime entry.2 = false)
    tasks.

End TaskSweep.

(** ** services/ImageGenerator.js: the downloads *)
Module ImageDownload.

(** How one request for the file ends: the request throws (a network
    error, a timeout, or a status that axios rejects), or a response
    arrives with a status; the write of the file then finishes, or fails
    with an error ([writeError] is its message). *)
Inductive download_attempt :=
| RequestFailed
| Responded (status : Z) (writeError : option string).

(** What a call does besides answering. *)
Inductive io :=
| EnsureDir (dir : string)
| Get (url : string)
| Wait (milliseconds : Z).

Section WithWorld.
Context (w : World).

(** The promise of the write that a call returns: no [catch] of the
    function awaits it, so its rejection is the rejection of the call. *)
Definition written {X} (value : X) (writeError : option string)
  : completion X :=
  match writeError with
  | None => Returns value
  | Some message => Throws message
  end.

(** The loop [while (retryCount < maxRetries)] of
    [_downloadAndSaveImage], by the number of turns left.  [inl] holds
    what the call answers from inside the loop; [inr] is the end of the
    loop, where [lastError] is thrown. *)
Fixpoint downloadLoop (remaining retryCount : nat)
    (attempt : nat -> download_attempt) (imageUrl imagePath : string)
  : (completion (option string) + unit) * list io :=
  match remaining with
  | O => (inr tt, [])
  | S remaining' =>
      let retry :=
        let delay :=
          if Nat.ltb retryCount (3 - 1)
          then [Wait (2 ^ Z.of_nat retryCount * 1000)] else [] in
        let '(r, log) :=
          downloadLoop remaining' (S retryCount) attempt imageUrl imagePath in
        (r, Get imageUrl :: delay ++ log) in
      match attempt retryCount with
      | Responded status writeError =>
          if status =? 200
          then (inl (written (Some imagePath) writeError), [Get imageUrl])
          else retry
      | RequestFailed => retry
      end
  end.

(** [_downloadAndSaveImage(imageUrl, filename)]; [dirReady] tells
    whether [fs.ensureDir] succeeds. *)
Definition _downloadAndSaveImage (dirReady : bool)
    (attempt : nat -> download_attempt) (imageUrl : string)
    (filename : option string) : completion (option string) * list io :=
  if dirReady then
    let name :=
      if truthy filename then default EmptyString filename
      else "image_" +:+ dateNow w +:+ ".png" in
    let imagePath := path_join w (outputDir w) name in
    match downloadLoop 3 0 attempt imageUrl imagePath with
    | (inl answer, log) => (answer, EnsureDir (outputDir w) :: log)
    | (inr _, log) => (Returns None, EnsureDir (outputDir w) :: log)
    end
  else (Returns None, [EnsureDir (outputDir w)]).

(** The loop [for (attempt = 1; attempt <= maxRetries; attempt++)] of
    [downloadAndSaveImage], which saves whatever response arrives. *)
Fixpoint downloadLoopByTask (remaining attemptNumber : nat)
    (attempt : nat -> download_attempt) (imageUrl imagePath : string)
  : (completion string + unit) * list io :=
  match remaining with
  | O => (inr tt, [])
  | S remaining' =>
      match attempt attemptNumber with
      | Responded _ writeError =>
          (inl (written imagePath writeError), [Get imageUrl])
      | RequestFailed =>
          let delay :=
            if Nat.ltb attemptNumber 3
            then [Wait (2 ^ Z.of_nat attemptNumber * 1000)] else [] in
          let '(r, log) :=
            downloadLoopByTask remaining' (S attemptNumber) attempt imageUrl
              imagePath in
          (r, Get imageUrl :: delay ++ log)
      end
  end.

(** [downloadAndSaveImage(imageUrl, taskId)] *)
Definition downloadAndSaveImage (attempt : nat -> download_attempt)
    (imageUrl taskId : string) : completion string * list io :=
  let filename := "image_" +:+ taskId +:+ ".png" in
  let imagePath := path_join w (outputDir w) filename in
  match downloadLoopByTask 3 1 attempt imageUrl imagePath with
  | (inl answer, log) => (answer, log)
  | (inr _, log) => (Throws "Failed to download image", log)
  end.

End WithWorld.
End ImageDownload.

(** ** services/ImageGenerator.js and routes/image.js: the image task *)
Module ImageTask.
Section WithWorld.
Context (w : World).
Import TaskManager ImageGenerator VideoGenerator.

Definition imageRunningUpdate : task :=
  list_to_map
    [("status", VString "running"); ("progress", VNumber 20);
     ("message", VString "Generating image with RunwayML...")].

Definition imageCompletedUpdate (imagePath : string) : task :=
  list_to_map
    [("status", VString "completed"); ("progress", VNumber 100);
     ("message", VString "Image generation completed successfully!");
     ("data", VObject [("imagePath", imagePath)])].

(** [generateImage(prompt, taskId, taskManager, wsManager, filename,
    refImage)]; [attempt] tells how each attempt at the image ends. *)
Definition generateImage (attempt : nat -> image_outcome)
    (prompt taskId : string) (filename refImage : option string)
  : M string :=
  tryCatch
    (bind (updateTask w taskId imageRunningUpdate) (fun _ =>
     bind (broadcastTaskUpdate taskId) (fun _ =>
     let '(imagePath, reqs) :=
       generateImageWithRunway w attempt prompt filename refImage in
     bind (emit (VisualRequests [reqs])) (fun _ =>
     if truthy imagePath then
       let path := default EmptyString imagePath in
       bind (updateTask w taskId (imageCompletedUpdate path)) (fun _ =>
       bind (broadcastTaskUpdate taskId) (fun _ =>
       ret path))
     else throw "Image generation failed"))))
    (fun message =>
       bind (updateTask w taskId (failedUpdate message)) (fun _ =>
       bind (broadcastTaskUpdate taskId) (fun _ =>
       throw message))).

End WithWorld.
End ImageTask.

(** ** services/WebSocketManager.js *)
Module WebSocketManager.
Import TaskManager.

(** A value of a message read by [JSON.parse], as far as the manager
    looks at it.  Of a number it is kept whether it is zero and the text
    that a template literal prints for it; of an object or an array,
    that text. *)
Inductive json :=
| JNull
| JBool (b : bool)
| JNumber (isZero : bool) (shown : string)
| JString (s : string)
| JObject (shown : string).

(** The text of a value in a template literal; [None] is [undefined]. *)
Definition display (v : option json) : string :=
  match v with
  | None => "undefined"
  | Some JNull => "null"
  | Some (JBool true) => "true"
  | Some (JBool false) => "false"
  | Some (JNumber _ shown) => shown
  | Some (JString s) => s
  | Some (JObject shown) => shown
  end.

(** [!v] *)
Definition falsy (v : option json) : bool :=
  match v with
  | None => true
  | Some JNull => true
  | Some (JBool b) => negb b
  | Some (JNumber isZero _) => isZero
  | Some (JString s) => String.eqb s ""
  | Some (JObject _) => false
  end.

(** [v === s] for a string [s] *)
Definition isString (s : string) (v : option json) : bool :=
  match v with
  | Some (JString t) => String.eqb t s
  | _ => false
  end.

(** The messages sent to a client. *)
Inductive message :=
| Connection (text timestamp : string)
| Subscribed (taskId : option json) (text : string)
| Unsubscribed (text : string)
| Pong (timestamp : string)
| ErrorMessage (text : string)
| TaskUpdate (taskId : string) (task : option task) (timestamp : string)
| Broadcast (text timestamp : string).

(** A connected socket: whether its [readyState] is [OPEN], its
    property [taskId] ([None] while it is [undefined]) and what was sent
    to it. *)
Record client := {
  isOpen : bool;
  subscription : option json;
  outbox : list message;
}.

(** [ws.send(JSON.stringify(m))] on an open socket. *)
Definition send (m : message) (c : client) : client :=
  {| isOpen := isOpen c; subscription := subscription c;
     outbox := outbox c ++ [m] |}.

(** A message of a client that parsed to an object: its properties
    [type] and [taskId], [None] where the object has none. *)
Record inbound := {
  type : option json;
  taskId : option json;
}.

(** [handleClientMessage(ws, data)]: the [switch] compares [data.type]
    with each label by strict equality; [data.taskId] is stored as it
    is. *)
Definition handleClientMessage (now : string) (ws : client) (data : inbound)
  : client :=
  let typeIs label := isString label (type data) in
  if typeIs "subscribe" then
    send (Subscribed (taskId data)
            ("Subscribed to task " +:+ display (taskId data)))
      {| isOpen := isOpen ws; subscription := taskId data;
         outbox := outbox ws |}
  else if typeIs "unsubscribe" then
    send (Unsubscribed "Unsubscribed from task updates")
      {| isOpen := isOpen ws; subscription := Some JNull;
         outbox := outbox ws |}
  else if typeIs "ping" then send (Pong now) ws
  else
    send (ErrorMessage ("Unknown message type: " +:+ display (type data))) ws.

(** [client.taskId === taskId || !client.taskId] *)
Definition wants (taskId : string) (c : client) : bool :=
  isString taskId (subscription c) || falsy (subscription c).

(** [broadcastTaskUpdate(taskId, taskData)] over the clients. *)
Definition broadcastTaskUpdate (now : string) (taskId : string)
    (taskData : option task) (clients : list client) : list client :=
  map (fun c =>
         if isOpen c && wants taskId c
         then send (TaskUpdate taskId taskData now) c else c)
    clients.

End WebSocketManager.

(** ** routes/status.js *)
Module StatusRoute.
Import TaskManager.

(** The field [key] of the object, as the last of the properties of
    that name defines it. *)
Fixpoint field (key : string) (fields : list (string * string))
  : option string :=
  match fields with
  | [] => None
  | (k, v) :: rest =>
      match field key rest with
      | Some later => Some later
      | None => if String.eqb k key then Some v else None
      end
  end.

(** [path.split('/').pop()] *)
Definition baseName (path : string) : string :=
  default EmptyString (last (split "/" path)).

(** The [filename] of the answer: the base name of the first of
    [data.videoPath], [data.imagePath] and [data.pdfPath] that is
    truthy. *)
Definition filenameOf (t : task) : option string :=
  match t !! "data" with
  | Some (VObject fields) =>
      if truthy (field "videoPath" fields)
      then baseName <$> field "videoPath" fields
      else if truthy (field "imagePath" fields)
      then baseName <$> field "imagePath" fields
      else if truthy (field "pdfPath" fields)
      then baseName <$> field "pdfPath" fields
      else None
  | _ => None
  end.

(** The answer of [GET /api/status/:taskId]. *)
Inductive answer :=
| NotFound (error : string)
| Found (taskId status progress message type : option value)
    (filename : option string) (error createdAt updatedAt : option value).

Definition getStatus (taskId : string) (tasks : registry) : answer :=
  match getTask taskId tasks with
  | None => NotFound "Task not found"
  | Some t =>
      Found (t !! "id") (t !! "status") (t !! "progress") (t !! "message")
        (t !! "type") (filenameOf t) (t !! "error") (t !! "createdAt")
        (t !! "updatedAt")
  end.

End StatusRoute.

(** ** Further examples *)
Module MoreExamples.
Import TaskManager ImageGenerator VideoGenerator Examples.

(** The three scenes of [dayScript], out of order. *)
Definition shuffledDayScript : string :=
  "SCENE 3: Dusk | Duration: 10 seconds" +:+ LF
  +:+ "SCENE 1: Dawn | Duration: 10 seconds" +:+ LF
  +:+ "SCENE 2: Noon | Duration: 10 seconds".

(** A world in which the media tool fails. *)
Definition brokenTool : World :=
  {| outputDir := "output";
     path_join := posix_join;
     path_dirname := posix_dirname;
     path_extname := posix_extname;
     path_isAbsolute := posix_isAbsolute;
     path_resolve := posix_resolve;
     clock := Z.of_nat;
     uuidv4 := fun _ => "3f2a";
     dateNow := "1700000000000";
     timestamp := "2025-07-20T10-00-00";
     scriptCompletion := fun _ => Some sunriseScript;
     imageAttempt := fun _ _ => ImageSaved;
     readBase64 := fun _ => Some "iVBORw0KGgo=";
     motionCompletion := fun _ _ => Some "The sun climbs over the sea.";
     videoAttempt := fun _ _ => true;
     pathExists := fun _ => true;
     writeFile := fun _ _ => true;
     remove := fun _ => true;
     exec := fun _ => false |}.

End MoreExamples.

(** * Properties *)

Import TaskManager ImageGenerator VideoGenerator Examples.

(** ** Strings *)

Lemma prefix_colon_cons (c : ascii) (s : string) :
  String.prefix ":" (String c s) = Ascii.eqb ":" c.
Proof.
  cbn [String.prefix]. destruct (ascii_dec ":" c) as [<-|Hne].
  - destruct s; reflexivity.
  - symmetry. apply Ascii.eqb_neq. exact Hne.
Qed.

Lemma append_empty_r (s : string) : s +:+ EmptyString = s.
Proof.
  induction s as [|c s IH]; [reflexivity|].
  change (String c (s +:+ EmptyString) = String c s). now f_equal.
Qed.

(** A text without colon is the only piece of its split. *)
Lemma split_colon_none (a : string) :
  includes ":" a = false -> split ":" a = [a].
Proof.
  unfold split. induction a as [|c a IH]; intros H; [reflexivity|].
  cbn [includes] in H. apply orb_false_iff in H as [Hp Hi].
  cbn [split_go]. rewrite Hp, (IH Hi). reflexivity.
Qed.

(** The first piece of a split ends at the first colon. *)
Lemma split_colon_app (a s : string) :
  includes ":" a = false ->
  split ":" (a +:+ ":" +:+ s) = a :: split ":" s.
Proof.
  unfold split. induction a as [|c a IH]; intros H.
  - cbn. destruct s; reflexivity.
  - cbn [includes] in H. apply orb_false_iff in H as [Hp Hi].
    change (String c a +:+ ":" +:+ s) with (String c (a +:+ ":" +:+ s)).
    cbn [split_go].
    rewrite prefix_colon_cons in Hp |- *. rewrite Hp, (IH Hi). reflexivity.
Qed.

(** The second piece of a split: the text between the first colon and
    the second, or the end of the text where there is no second colon. *)
Lemma split_colon_second (a b rest : string) :
  includes ":" a = false ->
  includes ":" b = false ->
  rest = EmptyString \/ (exists c, rest = ":" +:+ c) ->
  split ":" (a +:+ ":" +:+ b +:+ rest) !! 1%nat = Some b.
Proof.
  intros Ha Hb Hrest. rewrite (split_colon_app a _ Ha).
  destruct Hrest as [->|[c ->]].
  - rewrite append_empty_r, (split_colon_none b Hb). reflexivity.
  - rewrite (split_colon_app b c Hb). reflexivity.
Qed.

(** A split into two pieces or more has met the separator. *)
Lemma split_go_includes (sep : string) (s : string) (skip : nat) :
  (2 <= length (split_go sep skip s))%nat -> includes sep s = true.
Proof.
  revert skip. induction s as [|c s IH]; intros skip H.
  - cbn in H. lia.
  - cbn [includes]. destruct skip as [|k]; cbn [split_go] in H.
    + destruct (String.prefix sep (String c s)) eqn:Hp; [reflexivity|].
      cbn [orb]. destruct (split_go sep 0 s) as [|p ps] eqn:Hs.
      * cbn in H. lia.
      * apply (IH O). rewrite Hs. exact H.
    + rewrite (IH k H). apply orb_true_r.
Qed.

(** ** The scene decomposer *)

Section ParseSceneFacts.
Context {A : Arith}.

(** A line that starts with the marker and splits in two at the
    delimiter adds one scene, whose description is the second piece of
    the split at ':' of the part before the delimiter. *)
Lemma parseLine_pushes (st : list scene * number) (line before after : string) :
  startsWith "SCENE" line = true ->
  split "| Duration:" line = [before; after] ->
  exists sc,
    fst (parseLine st line) = fst st ++ [sc]
    /\ text sc = realismPrefix +:+ toString (split ":" before !! 1%nat)
    /\ duration sc = parseFloat (removeSeconds after).
Proof.
  intros Hstart Hsplit. destruct st as [scenes currentTime].
  unfold parseLine. rewrite Hstart.
  rewrite (split_go_includes "| Duration:" line 0).
  2:{ fold (split "| Duration:" line). rewrite Hsplit. cbn. lia. }
  cbn [andb]. rewrite Hsplit. eexists. cbn [fst]. split; [reflexivity|].
  cbn [text duration]. split; reflexivity.
Qed.

End ParseSceneFacts.

(** C10 as stated fails on the plainest line: the text strictly between
    the first and the second ':' of the line runs into the delimiter,
    which the description recorded does not. *)
Lemma parseScene_description_counterexample :
  let line := "SCENE 1: A sunrise | Duration: 10 seconds" in
  line = "SCENE 1" +:+ ":" +:+ " A sunrise | Duration" +:+ ":" +:+ " 10 seconds"
  /\ includes ":" "SCENE 1" = false
  /\ includes ":" " A sunrise | Duration" = false
  /\ map text (parseScene (A:=exactArith) line)
     = [realismPrefix +:+ " A sunrise "]
  /\ realismPrefix +:+ " A sunrise "
     <> realismPrefix +:+ " A sunrise | Duration".
Proof.
  cbv zeta. split; [reflexivity|]. split; [reflexivity|].
  split; [reflexivity|]. split; [vm_compute; reflexivity|].
  vm_compute. discriminate.
Qed.

Section SortAndRetime.
Context {A : Arith}.

Lemma Forall_insert (P : scene -> Prop) (x : scene) (l : list scene) :
  Forall P (insert x l) <-> P x /\ Forall P l.
Proof.
  induction l as [|y l IH]; cbn [insert].
  - split; [intros H; inversion H; auto | intros [Hx _]; auto].
  - destruct (isNegative (comparator y x)).
    + rewrite !Forall_cons, IH. tauto.
    + rewrite !Forall_cons. tauto.
Qed.

Lemma Forall_sort (P : scene -> Prop) (l : list scene) :
  Forall P (sort l) <-> Forall P l.
Proof.
  induction l as [|x l IH]; [reflexivity|].
  cbn [sort foldr]. fold (sort l).
  rewrite Forall_insert, Forall_cons, IH. reflexivity.
Qed.

Lemma length_insert_scene (x : scene) (l : list scene) :
  length (insert x l) = S (length l).
Proof.
  induction l as [|y l IH]; [reflexivity|]. cbn [insert].
  destruct (isNegative (comparator y x)); cbn [length]; [now rewrite IH|reflexivity].
Qed.

Lemma length_sort (l : list scene) : length (sort l) = length l.
Proof.
  induction l as [|x l IH]; [reflexivity|].
  cbn [sort foldr]. fold (sort l). now rewrite length_insert_scene, IH.
Qed.

Lemma number_le_trans (a b c : scene) :
  number_le a b -> number_le b c -> number_le a c.
Proof.
  unfold number_le, leb.
  destruct (scene_number a), (scene_number b), (scene_number c);
    try discriminate. intros H1 H2. apply Z.leb_le in H1, H2. apply Z.leb_le. lia.
Qed.

(** Inserting a numbered scene keeps a sorted array of numbered scenes
    sorted. *)
Lemma insert_sorted (x : scene) (l : list scene) :
  numbered x -> Forall numbered l ->
  StronglySorted number_le l -> StronglySorted number_le (insert x l).
Proof.
  intros [zx Hx]. induction l as [|y l IH]; intros Hnum Hsorted.
  - cbn. repeat constructor.
  - inversion Hnum as [|? ? [zy Hy] Hnum']; subst.
    inversion Hsorted as [|? ? Hsl Hall]; subst.
    cbn [insert]. unfold comparator. rewrite Hy, Hx. cbn [sub isNegative].
    destruct (zy - zx <? 0) eqn:Hcmp.
    + apply Z.ltb_lt in Hcmp. constructor; [apply IH; assumption|].
      apply Forall_insert. split; [|exact Hall].
      unfold number_le. rewrite Hy, Hx. cbn. apply Z.leb_le. lia.
    + apply Z.ltb_ge in Hcmp.
      assert (Hxy : number_le x y).
      { unfold number_le. rewrite Hy, Hx. cbn. apply Z.leb_le. lia. }
      constructor; [exact Hsorted|]. constructor; [exact Hxy|].
      eapply Forall_impl; [exact Hall|].
      intros z Hz. cbn. eapply number_le_trans; eassumption.
Qed.

Lemma sort_sorted (l : list scene) :
  Forall numbered l -> StronglySorted number_le (sort l).
Proof.
  induction l as [|x l IH]; intros Hnum; [constructor|].
  inversion Hnum; subst. cbn [sort foldr]. fold (sort l).
  apply insert_sorted; [assumption| |apply IH; assumption].
  apply Forall_sort. assumption.
Qed.

(** The times written by the second loop. *)
Lemma retime_numbers (t : number) (l : list scene) :
  map scene_number (retime t l) = map scene_number l.
Proof.
  revert t. induction l as [|s l IH]; intros t; [reflexivity|].
  cbn [retime map scene_number]. now rewrite IH.
Qed.

Lemma retime_texts (t : number) (l : list scene) :
  map text (retime t l) = map text l.
Proof.
  revert t. induction l as [|s l IH]; intros t; [reflexivity|].
  cbn [retime map text]. now rewrite IH.
Qed.

Lemma length_retime (t : number) (l : list scene) :
  length (retime t l) = length l.
Proof.
  revert t. induction l as [|s l IH]; intros t; [reflexivity|].
  cbn [retime length]. now rewrite IH.
Qed.

Lemma retime_head (t : number) (l : list scene) (s : scene) :
  head (retime t l) = Some s -> start_time s = t.
Proof.
  destruct l as [|x l]; cbn; [discriminate|]. intros [= <-]. reflexivity.
Qed.

Lemma retime_end (t : number) (l : list scene) :
  Forall (fun s => end_time s = add (start_time s) (duration s)) (retime t l).
Proof.
  revert t. induction l as [|x l IH]; intros t; cbn [retime]; constructor.
  - reflexivity.
  - apply IH.
Qed.

Lemma retime_adjacent (t : number) (l : list scene) (i : nat) (a b : scene) :
  retime t l !! i = Some a -> retime t l !! S i = Some b ->
  start_time b = end_time a.
Proof.
  revert t i. induction l as [|x l IH]; intros t i; [discriminate|].
  destruct i as [|i].
  - cbn [retime]. intros [= <-] Hb. cbn [end_time].
    change ((retime (add t (duration x)) l) !! 0%nat = Some b) in Hb.
    destruct l as [|y l]; [discriminate|]. cbn in Hb. injection Hb as <-.
    reflexivity.
  - cbn [retime]. intros Ha Hb. exact (IH _ i Ha Hb).
Qed.

Lemma StronglySorted_lookup {X} (R : X -> X -> Prop) (l : list X)
    (i j : nat) (a b : X) :
  StronglySorted R l -> (i < j)%nat ->
  l !! i = Some a -> l !! j = Some b -> R a b.
Proof.
  intros Hs. revert i j a b.
  induction Hs as [|x l Hs IH Hall]; intros i j a b Hij Ha Hb.
  - discriminate.
  - destruct j as [|j]; [lia|]. destruct i as [|i].
    + injection Ha as <-. cbn in Hb.
      rewrite Forall_forall in Hall. apply Hall.
      eapply list_elem_of_lookup_2. exact Hb.
    + cbn in Ha, Hb. apply (IH i j); [lia|assumption|assumption].
Qed.

(** What [parseScene] returns for every script: the first scene starts
    at zero, every scene ends at its start plus its duration and the
    next one starts where it ends; where no scene number is NaN, the
    scenes are in ascending order of their numbers, whatever the order
    of the lines. *)
Lemma parseScene_sorted_contiguous (script : string) :
  let out := parseScene script in
  (forall s, head out = Some s -> start_time s = zero)
  /\ Forall (fun s => end_time s = add (start_time s) (duration s)) out
  /\ (forall i a b, out !! i = Some a -> out !! S i = Some b ->
                    start_time b = end_time a)
  /\ (Forall numbered out ->
      forall i j a b, (i < j)%nat -> out !! i = Some a -> out !! j = Some b ->
                      number_le a b).
Proof.
  cbv zeta. unfold parseScene.
  destruct (fold_left parseLine (split LF script) ([], zero)) as [scenes t].
  split; [intros s; apply retime_head|].
  split; [apply retime_end|].
  split; [intros i a b; apply retime_adjacent|].
  intros Hnum i j a b Hij Ha Hb.
  assert (Hnums : Forall numbered (sort scenes)).
  { apply Forall_forall. intros s Hs.
    apply list_elem_of_lookup in Hs as [k Hk].
    destruct (lookup_lt_is_Some_2 (retime zero (sort scenes)) k) as [s' Hs'].
    { rewrite length_retime. eapply lookup_lt_Some. exact Hk. }
    rewrite Forall_forall in Hnum.
    destruct (Hnum s') as [z Hz].
    { eapply list_elem_of_lookup_2. exact Hs'. }
    exists z. rewrite <- Hz.
    assert (Hm := retime_numbers zero (sort scenes)).
    apply (f_equal (fun l => l !! k)) in Hm.
    rewrite !list_lookup_fmap, Hk, Hs' in Hm. cbn in Hm. congruence. }
  apply (proj1 (Forall_sort numbered scenes)) in Hnums.
  assert (Hsorted := sort_sorted scenes Hnums).
  assert (Hm := retime_numbers zero (sort scenes)).
  assert (Hi := f_equal (fun l => l !! i) Hm).
  assert (Hj := f_equal (fun l => l !! j) Hm).
  cbn in Hi, Hj. rewrite !list_lookup_fmap in Hi, Hj.
  rewrite Ha in Hi. rewrite Hb in Hj.
  destruct (sort scenes !! i) as [a'|] eqn:Ha'; [|discriminate].
  destruct (sort scenes !! j) as [b'|] eqn:Hb'; [|discriminate].
  cbn in Hi, Hj. injection Hi as Hi. injection Hj as Hj.
  unfold number_le. rewrite Hi, Hj.
  exact (StronglySorted_lookup number_le (sort scenes) i j a' b' Hsorted Hij Ha' Hb').
Qed.

(** The loop over the lines only appends: a scene pushed stays, and
    the scene of a line that is pushed is in the array at the end. *)
Lemma parseLine_appends (st : list scene * number) (line : string) :
  exists more, fst (parseLine st line) = fst st ++ more.
Proof.
  destruct st as [scenes t]. unfold parseLine.
  destruct (startsWith "SCENE" line && includes "| Duration:" line);
    [|exists []; cbn [fst]; now rewrite app_nil_r].
  destruct (split "| Duration:" line) as [|p0 [|p1 [|p2 ps]]];
    try (exists []; cbn [fst]; now rewrite app_nil_r).
  eexists. reflexivity.
Qed.

Lemma fold_parseLine_keeps (lines : list string) (st : list scene * number)
    (sc : scene) :
  sc ∈ fst st -> sc ∈ fst (fold_left parseLine lines st).
Proof.
  revert st. induction lines as [|l lines IH]; intros st Hin; [exact Hin|].
  cbn [fold_left]. apply IH.
  destruct (parseLine_appends st l) as [more ->].
  apply elem_of_app. now left.
Qed.

Lemma fold_parseLine_pushed (lines : list string) (st : list scene * number)
    (line before after : string) :
  line ∈ lines ->
  startsWith "SCENE" line = true ->
  split "| Duration:" line = [before; after] ->
  exists sc,
    sc ∈ fst (fold_left parseLine lines st)
    /\ text sc = realismPrefix +:+ toString (split ":" before !! 1%nat)
    /\ duration sc = parseFloat (removeSeconds after).
Proof.
  intros Hin Hstart Hsplit. revert st.
  induction Hin as [line lines|line l lines Hin IH]; intros st;
    cbn [fold_left].
  - destruct (parseLine_pushes st line before after Hstart Hsplit)
      as (sc & Hpush & Htext & Hduration).
    exists sc. split; [|split; assumption].
    apply fold_parseLine_keeps. rewrite Hpush. apply elem_of_app. right.
    apply list_elem_of_here.
  - apply IH; assumption.
Qed.

Lemma Exists_insert (P : scene -> Prop) (x : scene) (l : list scene) :
  Exists P (insert x l) <-> P x \/ Exists P l.
Proof.
  induction l as [|y l IH]; cbn [insert].
  - rewrite Exists_cons. tauto.
  - destruct (isNegative (comparator y x)).
    + rewrite !Exists_cons, IH. tauto.
    + rewrite !Exists_cons. tauto.
Qed.

Lemma Exists_sort (P : scene -> Prop) (l : list scene) :
  Exists P (sort l) <-> Exists P l.
Proof.
  induction l as [|x l IH].
  - reflexivity.
  - cbn [sort foldr]. fold (sort l). rewrite Exists_insert, Exists_cons, IH.
    reflexivity.
Qed.

(** The second loop changes the times only. *)
Lemma Exists_retime (Q : string -> number -> Prop) (t : number)
    (l : list scene) :
  Exists (fun s => Q (text s) (duration s)) l ->
  Exists (fun s => Q (text s) (duration s)) (retime t l).
Proof.
  intros H. revert t. induction H as [s l Hs|s l _ IH]; intros t;
    cbn [retime].
  - now apply Exists_cons_hd.
  - apply Exists_cons_tl. apply IH.
Qed.

(** C10, as amended.  For a line of the script that starts with the
    scene marker, contains the duration delimiter once and has a ':'
    before it, [parseScene] returns a scene, of the duration that the
    line gives, whose description is the realism prefix followed only by
    the text strictly between the first ':' of the line and the next ':'
    before the delimiter, or up to the delimiter where there is no such
    second ':': text after a second ':' before the delimiter is
    dropped. *)
Theorem parseScene_description
    (script line before after a b rest : string) :
  line ∈ split LF script ->
  startsWith "SCENE" line = true ->
  split "| Duration:" line = [before; after] ->
  before = a +:+ ":" +:+ b +:+ rest ->
  includes ":" a = false ->
  includes ":" b = false ->
  rest = EmptyString \/ (exists c, rest = ":" +:+ c) ->
  exists sc,
    sc ∈ parseScene script
    /\ text sc = realismPrefix +:+ b
    /\ duration sc = parseFloat (removeSeconds after).
Proof.
  intros Hin Hstart Hsplit Hbefore Ha Hb Hrest. unfold parseScene.
  destruct (fold_parseLine_pushed (split LF script) ([], zero) line before
              after Hin Hstart Hsplit) as (sc & Hsc & Htext & Hduration).
  destruct (fold_left parseLine (split LF script) ([], zero)) as [scenes t].
  cbn [fst] in Hsc.
  rewrite Hbefore, (split_colon_second a b rest Ha Hb Hrest) in Htext.
  cbn [toString] in Htext.
  apply Exists_exists.
  apply (Exists_retime
           (fun d n => d = realismPrefix +:+ b
                       /\ n = parseFloat (removeSeconds after))).
  apply Exists_sort. apply Exists_exists. exists sc. auto.
Qed.

End SortAndRetime.

(** The example of C10: a line whose description has a second colon,
    in a script of two lines. *)
Lemma parseScene_description_witness :
  exists sc,
    sc ∈ parseScene (A:=exactArith)
           ("SCENE 2: Banner: Join us | Duration: 10 seconds" +:+ LF
            +:+ "SCENE 1: Dawn | Duration: 5 seconds")
    /\ text sc = realismPrefix +:+ " Banner"
    /\ duration sc = parseFloat (removeSeconds " 10 seconds").
Proof.
  apply (parseScene_description (A:=exactArith) _
           "SCENE 2: Banner: Join us | Duration: 10 seconds"
           "SCENE 2: Banner: Join us " " 10 seconds"
           "SCENE 2" " Banner" ": Join us ").
  - apply (list_elem_of_lookup_2 _ 0%nat). vm_compute. reflexivity.
  - reflexivity.
  - reflexivity.
  - reflexivity.
  - reflexivity.
  - reflexivity.
  - right. exists " Join us ". reflexivity.
Defined.

(** ** The task registry *)

Lemma assign_lookup (t updates : task) (now : Z) (k : string) :
  assign t updates now !! k =
    if decide (k = "updatedAt") then Some (VDate now)
    else match updates !! k with
         | Some v => Some v
         | None => t !! k
         end.
Proof.
  unfold assign. destruct (decide (k = "updatedAt")) as [->|Hne].
  - apply lookup_insert_eq.
  - rewrite lookup_insert_ne by congruence. rewrite lookup_union.
    destruct (updates !! k), (t !! k); reflexivity.
Qed.

(** C9.  [updateTask] throws the not-found error exactly when the id is
    not in the registry, and then leaves the registry as it was; for an
    id that is present it stores and returns the task in which the given
    fields have their new values, [updatedAt] is the current date and
    every other field is as before; no other task changes. *)
Theorem updateTask_merges (now : Z) (taskId : string) (updates : task)
    (tasks : registry) :
  ((exists message,
       fst (TaskManager.updateTask now taskId updates tasks) = Throws message)
   <-> tasks !! taskId = None)
  /\ match tasks !! taskId with
     | None =>
         TaskManager.updateTask now taskId updates tasks
         = (Throws ("Task " +:+ taskId +:+ " not found"), tasks)
     | Some t =>
         exists t',
           TaskManager.updateTask now taskId updates tasks
           = (Returns t', <[taskId := t']> tasks)
           /\ t' !! "updatedAt" = Some (VDate now)
           /\ (forall k v, k <> "updatedAt" -> updates !! k = Some v ->
                           t' !! k = Some v)
           /\ (forall k, k <> "updatedAt" -> updates !! k = None ->
                         t' !! k = t !! k)
           /\ (forall other, other <> taskId ->
                             <[taskId := t']> tasks !! other = tasks !! other)
     end.
Proof.
  unfold TaskManager.updateTask. destruct (tasks !! taskId) as [t|] eqn:Hlook.
  - split.
    + split; [intros [m Hm]; discriminate | discriminate].
    + exists (assign t updates now). split; [reflexivity|].
      split; [rewrite assign_lookup; now destruct (decide _)|].
      split; [|split].
      * intros k v Hk Hu. rewrite assign_lookup.
        destruct (decide _); [contradiction|]. now rewrite Hu.
      * intros k Hk Hu. rewrite assign_lookup.
        destruct (decide _); [contradiction|]. now rewrite Hu.
      * intros other Hne. apply lookup_insert_ne. congruence.
  - split; [|reflexivity]. split; [reflexivity|]. intros _. eexists. reflexivity.
Qed.

(** ** The retry loops *)

Section StageFacts.
Context {A : Arith} (w : World).

(** Every request of a call carries the prompt and the reference of
    that call. *)
Lemma retryLoop_requests (remaining retryCount : nat)
    (attempt : nat -> image_outcome) (req : image_request) (path : string) :
  Forall (fun r => r = req)
    (snd (retryLoop remaining retryCount attempt req path)).
Proof.
  revert retryCount. induction remaining as [|n IH]; intros k; [constructor|].
  cbn [retryLoop].
  assert (Hrec :
    Forall (fun r => r = req)
      (snd (match n with
            | O => (None, [req])
            | S _ => let '(r, reqs) := retryLoop n (S k) attempt req path in
                     (r, req :: reqs)
            end))).
  { destruct n as [|n']; [repeat constructor|].
    specialize (IH (S k)).
    destruct (retryLoop (S n') (S k) attempt req path) as [r reqs].
    constructor; [reflexivity|exact IH]. }
  destruct (attempt k); [|exact Hrec|exact Hrec].
  destruct (truthy (Some path)); [repeat constructor|exact Hrec].
Qed.

(** An image whose three attempts fail: three requests, then [null]. *)
Lemma generateImageWithRunway_exhausted (attempt : nat -> image_outcome)
    (prompt : string) (filename refImage : option string) :
  (forall k, (k < 3)%nat -> attempt k <> ImageSaved) ->
  generateImageWithRunway w attempt prompt filename refImage
  = (None, [request prompt refImage; request prompt refImage;
            request prompt refImage]).
Proof.
  intros Hfail. unfold generateImageWithRunway, maxRetries.
  cbn [retryLoop].
  pose proof (Hfail 0%nat ltac:(lia)) as H0.
  pose proof (Hfail 1%nat ltac:(lia)) as H1.
  pose proof (Hfail 2%nat ltac:(lia)) as H2.
  destruct (attempt 0%nat); [contradiction| |];
    (destruct (attempt 1%nat); [contradiction| |]);
    (destruct (attempt 2%nat); [contradiction| |]); reflexivity.
Qed.

(** What the visual stage does for two neighbouring scenes: the call
    for the second one receives the reference of the first call, or
    the data uri of the image that the first call saved. *)
Lemma visualsLoop_step (scenes : list scene) (i0 : nat) (ref : string)
    (j : nat) (sc : scene) :
  scenes !! j = Some sc ->
  exists ref_j,
    let result :=
      generateImageWithRunway w (imageAttempt w (i0 + j)) (text sc)
        (Some (imageFile (i0 + j))) (Some ref_j) in
    (j = 0%nat -> ref_j = ref)
    /\ visualsLoop w i0 ref scenes !! j
       = Some {| imagePath := fst result; requests := snd result |}
    /\ forall sc', scenes !! S j = Some sc' ->
         let ref' :=
           if truthy (fst result)
           then getImageAsDataUri w (default EmptyString (fst result))
           else ref_j in
         let result' :=
           generateImageWithRunway w (imageAttempt w (i0 + S j)) (text sc')
             (Some (imageFile (i0 + S j))) (Some ref') in
         visualsLoop w i0 ref scenes !! S j
         = Some {| imagePath := fst result'; requests := snd result' |}.
Proof.
  revert i0 ref j. induction scenes as [|s scenes IH]; intros i0 ref j Hj;
    [discriminate|].
  destruct j as [|j].
  - injection Hj as <-. exists ref. cbv zeta.
    split; [reflexivity|]. rewrite Nat.add_0_r. cbn [visualsLoop].
    fold (imageFile i0).
    destruct (generateImageWithRunway w (imageAttempt w i0) (text s)
                (Some (imageFile i0)) (Some ref)) as [p r] eqn:Hgen.
    cbn [fst snd]. split; [reflexivity|].
    intros sc' Hsc'. destruct scenes as [|s' scenes']; [discriminate|].
    injection Hsc' as <-. cbn [visualsLoop]. fold (imageFile (S i0)).
    replace (i0 + 1)%nat with (S i0) by lia.
    destruct (generateImageWithRunway w (imageAttempt w (S i0)) (text s')
                (Some (imageFile (S i0))) _) as [p' r'].
    reflexivity.
  - cbn [visualsLoop]. fold (imageFile i0).
    destruct (generateImageWithRunway w (imageAttempt w i0) (text s)
                (Some (imageFile i0)) (Some ref)) as [p r].
    destruct (IH (S i0) (if truthy p
                         then getImageAsDataUri w (default EmptyString p)
                         else ref) j Hj) as (ref_j & _ & Hlook & Hnext).
    exists ref_j. cbv zeta in *.
    replace (i0 + S j)%nat with (S i0 + j)%nat by lia.
    split; [discriminate|]. split; [exact Hlook|].
    intros sc' Hsc'. specialize (Hnext sc' Hsc').
    replace (i0 + S (S j))%nat with (S i0 + S j)%nat by lia. exact Hnext.
Qed.

(** One turn of the loop of the visual stage. *)
Lemma visualsLoop_cons (s : scene) (scenes : list scene) (i0 : nat)
    (ref : string) :
  visualsLoop w i0 ref (s :: scenes)
  = let result :=
      generateImageWithRunway w (imageAttempt w i0) (text s)
        (Some (imageFile i0)) (Some ref) in
    {| imagePath := fst result; requests := snd result |}
    :: visualsLoop w (S i0)
         (if truthy (fst result)
          then getImageAsDataUri w (default EmptyString (fst result))
          else ref)
         scenes.
Proof.
  cbv zeta. cbn [visualsLoop]. fold (imageFile i0).
  destruct (generateImageWithRunway w (imageAttempt w i0) (text s)
              (Some (imageFile i0)) (Some ref)) as [p r].
  reflexivity.
Qed.

(** Where the reference of a scene comes from: it is the reference the
    loop started with while no scene before has succeeded, and otherwise
    what [getImageAsDataUri] answered for the image of the last scene
    before that succeeded. *)
Lemma visualsLoop_origin (scenes : list scene) (i0 : nat) (ref : string)
    (j : nat) (sc : scene) :
  scenes !! j = Some sc ->
  exists ref_j,
    visualsLoop w i0 ref scenes !! j
    = Some {| imagePath :=
                fst (generateImageWithRunway w (imageAttempt w (i0 + j))
                       (text sc) (Some (imageFile (i0 + j))) (Some ref_j));
              requests :=
                snd (generateImageWithRunway w (imageAttempt w (i0 + j))
                       (text sc) (Some (imageFile (i0 + j))) (Some ref_j)) |}
    /\ ((forall k vk, (k < j)%nat ->
           visualsLoop w i0 ref scenes !! k = Some vk ->
           truthy (imagePath vk) = false) ->
        ref_j = ref)
    /\ (forall k vk, (k < j)%nat ->
          visualsLoop w i0 ref scenes !! k = Some vk ->
          truthy (imagePath vk) = true ->
          (forall m vm, (k < m < j)%nat ->
             visualsLoop w i0 ref scenes !! m = Some vm ->
             truthy (imagePath vm) = false) ->
          ref_j = getImageAsDataUri w (default EmptyString (imagePath vk))).
Proof.
  revert i0 ref j. induction scenes as [|s scenes IH]; intros i0 ref j Hj;
    [discriminate|].
  rewrite visualsLoop_cons. cbv zeta.
  set (result := generateImageWithRunway w (imageAttempt w i0) (text s)
                   (Some (imageFile i0)) (Some ref)).
  set (ref' := if truthy (fst result)
               then getImageAsDataUri w (default EmptyString (fst result))
               else ref).
  destruct j as [|j].
  - injection Hj as <-. exists ref. rewrite Nat.add_0_r.
    split; [reflexivity|]. split; [reflexivity|].
    intros k vk Hk. lia.
  - destruct (IH (S i0) ref' j Hj) as (ref_j & Hlook & Hnone & Hlast).
    exists ref_j. replace (i0 + S j)%nat with (S i0 + j)%nat by lia.
    split; [exact Hlook|]. split.
    + intros Hfail.
      assert (H0 : truthy (fst result) = false).
      { exact (Hfail 0%nat _ ltac:(lia) eq_refl). }
      rewrite Hnone.
      * unfold ref'. now rewrite H0.
      * intros k vk Hk Hvk. exact (Hfail (S k) vk ltac:(lia) Hvk).
    + intros k vk Hk Hvk Hok Hbetween. destruct k as [|k].
      * injection Hvk as <-. cbn [imagePath] in Hok |- *.
        rewrite Hnone.
        -- unfold ref'. now rewrite Hok.
        -- intros m vm Hm Hvm. exact (Hbetween (S m) vm ltac:(lia) Hvm).
      * apply (Hlast k vk ltac:(lia) Hvk Hok).
        intros m vm Hm Hvm. exact (Hbetween (S m) vm ltac:(lia) Hvm).
Qed.

(** A call of [generateImageWithRunway] makes a request at least. *)
Lemma generateImageWithRunway_requests (attempt : nat -> image_outcome)
    (prompt : string) (filename refImage : option string) :
  snd (generateImageWithRunway w attempt prompt filename refImage) <> []
  /\ Forall (fun r => r = request prompt refImage)
       (snd (generateImageWithRunway w attempt prompt filename refImage)).
Proof.
  split; [|apply retryLoop_requests].
  unfold generateImageWithRunway, maxRetries. cbn [retryLoop].
  repeat match goal with
    | |- context [match attempt ?k with _ => _ end] => destruct (attempt k)
    | |- context [if truthy ?x then _ else _] => destruct (truthy x)
    end; discriminate.
Qed.

(** The requests for a scene that follows a failed one carry the
    reference of the requests for the failed scene. *)
Lemma failed_scene_same_reference (scenes : list scene) (i : nat)
    (v v' : visual) (r r' : image_request) :
  generateVisualsForScenes w scenes !! i = Some v ->
  generateVisualsForScenes w scenes !! S i = Some v' ->
  imagePath v = None ->
  r ∈ requests v -> r' ∈ requests v' ->
  referenceImages r' = referenceImages r.
Proof.
  unfold generateVisualsForScenes. intros Hv Hv' Hnull Hr Hr'.
  destruct (lookup_lt_is_Some_2 scenes i) as [sc Hsc].
  { assert (Hlen : forall l k ref, length (visualsLoop w k ref l) = length l).
    { induction l as [|x l IHl]; intros k ref; [reflexivity|].
      cbn [visualsLoop].
      destruct (generateImageWithRunway w _ _ _ _). cbn. now rewrite IHl. }
    rewrite <- (Hlen scenes 0%nat "None"). eapply lookup_lt_Some. exact Hv. }
  destruct (lookup_lt_is_Some_2 scenes (S i)) as [sc' Hsc'].
  { assert (Hlen : forall l k ref, length (visualsLoop w k ref l) = length l).
    { induction l as [|x l IHl]; intros k ref; [reflexivity|].
      cbn [visualsLoop].
      destruct (generateImageWithRunway w _ _ _ _). cbn. now rewrite IHl. }
    rewrite <- (Hlen scenes 0%nat "None"). eapply lookup_lt_Some. exact Hv'. }
  destruct (visualsLoop_step scenes 0 "None" i sc Hsc)
    as (ref_i & _ & Hlook & Hnext).
  cbv zeta in Hlook, Hnext. specialize (Hnext sc' Hsc').
  rewrite Hlook in Hv. injection Hv as <-.
  rewrite Hnext in Hv'. injection Hv' as <-.
  cbn [imagePath requests] in *. rewrite Hnull in Hr'. cbn [truthy] in Hr'.
  unfold generateImageWithRunway in Hr, Hr'.
  pose proof (retryLoop_requests maxRetries 0 (imageAttempt w (0 + i))
                (request (text sc) (Some ref_i))
                (path_join w (outputDir w)
                   (if truthy (Some (imageFile (0 + i)))
                    then default EmptyString (Some (imageFile (0 + i)))
                    else "image_" +:+ dateNow w +:+ ".png"))) as Hall.
  pose proof (retryLoop_requests maxRetries 0 (imageAttempt w (0 + S i))
                (request (text sc') (Some ref_i))
                (path_join w (outputDir w)
                   (if truthy (Some (imageFile (0 + S i)))
                    then default EmptyString (Some (imageFile (0 + S i)))
                    else "image_" +:+ dateNow w +:+ ".png"))) as Hall'.
  rewrite Forall_forall in Hall, Hall'.
  rewrite (Hall r Hr), (Hall' r' Hr'). unfold request.
  destruct ((match Some ref_i with
             | Some r0 => String.eqb r0 "None"
             | None => false
             end || negb (truthy (Some ref_i)))%bool); reflexivity.
Qed.

(** C2, as amended.  In the visual stage, when the slot of scene [i]
    is [null] (its retries are exhausted), the requests for scene
    [i+1] carry the same reference as the requests for scene [i] did:
    nothing resets the reference after a failure, so the no-reference
    branch is taken for scene [i+1] exactly when it was taken for scene
    [i].  That reference is no reference while no scene before [i] has
    succeeded, and otherwise what [getImageAsDataUri] answered for the
    image of the last scene before [i] that succeeded: its data uri, or
    no reference where the file could not be read. *)
Theorem failed_scene_keeps_reference (scenes : list scene) (i : nat)
    (v v' : visual) :
  generateVisualsForScenes w scenes !! i = Some v ->
  generateVisualsForScenes w scenes !! S i = Some v' ->
  imagePath v = None ->
  requests v <> [] /\ requests v' <> []
  /\ (forall r r', r ∈ requests v -> r' ∈ requests v' ->
        referenceImages r' = referenceImages r)
  /\ exists sc' ref,
       scenes !! S i = Some sc'
       /\ (forall r', r' ∈ requests v' -> r' = request (text sc') (Some ref))
       /\ ((forall k vk, (k < i)%nat ->
              generateVisualsForScenes w scenes !! k = Some vk ->
              truthy (imagePath vk) = false) ->
           ref = "None")
       /\ (forall k vk p, (k < i)%nat ->
             generateVisualsForScenes w scenes !! k = Some vk ->
             imagePath vk = Some p -> truthy (Some p) = true ->
             (forall m vm, (k < m < i)%nat ->
                generateVisualsForScenes w scenes !! m = Some vm ->
                truthy (imagePath vm) = false) ->
             ref = getImageAsDataUri w p).
Proof.
  intros Hv Hv' Hnull.
  assert (Hlen : forall l k ref, length (visualsLoop w k ref l) = length l).
  { induction l as [|x l IHl]; intros k ref; [reflexivity|].
    rewrite visualsLoop_cons. cbv zeta. cbn [length]. now rewrite IHl. }
  destruct (lookup_lt_is_Some_2 scenes i) as [sc Hsc].
  { rewrite <- (Hlen scenes 0%nat "None"). eapply lookup_lt_Some. exact Hv. }
  destruct (lookup_lt_is_Some_2 scenes (S i)) as [sc' Hsc'].
  { rewrite <- (Hlen scenes 0%nat "None"). eapply lookup_lt_Some. exact Hv'. }
  destruct (visualsLoop_origin scenes 0 "None" i sc Hsc) as (ref_i & Hi & _).
  destruct (visualsLoop_origin scenes 0 "None" (S i) sc' Hsc')
    as (ref & Hnext & Hnone & Hlast).
  fold (generateVisualsForScenes w scenes) in Hi, Hnext, Hnone, Hlast.
  pose proof Hv as Hv0. pose proof Hv' as Hv0'.
  rewrite Hi in Hv0. injection Hv0 as Hv0.
  rewrite Hnext in Hv0'. injection Hv0' as Hv0'.
  split; [rewrite <- Hv0; apply generateImageWithRunway_requests|].
  split; [rewrite <- Hv0'; apply generateImageWithRunway_requests|].
  split.
  { intros r r'. now apply (failed_scene_same_reference scenes i v v'). }
  exists sc', ref. split; [exact Hsc'|]. split; [|split].
  - intros r' Hr'. rewrite <- Hv0' in Hr'. cbn [requests] in Hr'.
    destruct (generateImageWithRunway_requests (imageAttempt w (0 + S i))
                (text sc') (Some (imageFile (0 + S i))) (Some ref))
      as [_ Hall].
    rewrite Forall_forall in Hall. exact (Hall r' Hr').
  - intros Hfail. apply Hnone. intros k vk Hk Hvk.
    destruct (decide (k = i)) as [->|Hne].
    + rewrite Hv in Hvk. injection Hvk as <-. now rewrite Hnull.
    + exact (Hfail k vk ltac:(lia) Hvk).
  - intros k vk p Hk Hvk Hp Hok Hbetween.
    assert (Hok' : truthy (imagePath vk) = true) by now rewrite Hp.
    rewrite (Hlast k vk ltac:(lia) Hvk Hok'); [now rewrite Hp|].
    intros m vm Hm Hvm. destruct (decide (m = i)) as [->|Hne].
    + rewrite Hv in Hvm. injection Hvm as <-. now rewrite Hnull.
    + exact (Hbetween m vm ltac:(lia) Hvm).
Qed.

(** The clip stage pushes one slot for each scene. *)
Lemma clipRetryLoop_exhausted (attempt : nat -> bool)
    (image : option string) (script path : string) :
  (forall k, (k < 3)%nat -> attempt k = false) ->
  clipRetryLoop w maxRetries 0 attempt image script path
  = ([None], [clipRequest w image script; clipRequest w image script;
              clipRequest w image script]).
Proof.
  intros Hfail. unfold maxRetries. cbn [clipRetryLoop].
  rewrite (Hfail 0%nat), (Hfail 1%nat), (Hfail 2%nat) by lia.
  destruct (clipRequest w image script); reflexivity.
Qed.

Lemma clipRetryLoop_one (attempt : nat -> bool)
    (image : option string) (script path : string) :
  exists slot,
    fst (clipRetryLoop w maxRetries 0 attempt image script path) = [slot].
Proof.
  unfold maxRetries. cbn [clipRetryLoop].
  destruct (clipRequest w image script);
    [destruct (attempt 0%nat && truthy (Some path));
     [|destruct (attempt 1%nat && truthy (Some path));
       [|destruct (attempt 2%nat && truthy (Some path))]]|];
    eexists; reflexivity.
Qed.

Lemma clipsLoop_lookup (videoScripts : list string)
    (imagePaths : list (option string)) (i0 j : nat) (script : string) :
  videoScripts !! j = Some script ->
  let result :=
    clipRetryLoop w maxRetries 0 (videoAttempt w (i0 + j))
      (mjoin (imagePaths !! (i0 + j)%nat)) script
      (path_join w (outputDir w) (videoFile (i0 + j))) in
  exists slot,
    fst result = [slot]
    /\ fst (clipsLoop w i0 videoScripts imagePaths) !! j = Some slot
    /\ snd (clipsLoop w i0 videoScripts imagePaths) !! j = Some (snd result).
Proof.
  revert i0 j. induction videoScripts as [|s rest IH]; intros i0 j Hj;
    [discriminate|].
  cbv zeta. cbn [clipsLoop].
  destruct (clipRetryLoop_one (videoAttempt w i0)
              (mjoin (imagePaths !! i0)) s
              (path_join w (outputDir w) (videoFile i0))) as [slot0 Hslot0].
  destruct (clipRetryLoop w maxRetries 0 (videoAttempt w i0)
              (mjoin (imagePaths !! i0)) s
              (path_join w (outputDir w) (videoFile i0)))
    as [pushed reqs] eqn:Hloop.
  cbn [fst] in Hslot0. subst pushed.
  destruct j as [|j].
  - injection Hj as <-. rewrite Nat.add_0_r, Hloop.
    destruct (clipsLoop w (S i0) rest imagePaths) as [paths log].
    exists slot0. repeat split.
  - destruct (IH (S i0) j Hj) as (slot & Hslot & Hpath & Hlog).
    cbv zeta in Hslot, Hpath, Hlog.
    replace (i0 + S j)%nat with (S i0 + j)%nat by lia.
    destruct (clipsLoop w (S i0) rest imagePaths) as [paths log].
    exists slot. split; [exact Hslot|]. split; [exact Hpath|exact Hlog].
Qed.

(** C4.  An item whose generation fails on every attempt is attempted
    three times and its slot is then [null], in the visual stage (the
    call [generateImageWithRunway] and the slot of
    [generateVisualsForScenes]) and in the clip stage, whose function
    returns: nothing is thrown. *)
Theorem exhausted_retries_yield_null :
  (forall attempt prompt filename refImage,
      (forall k, (k < 3)%nat -> attempt k <> ImageSaved) ->
      exists reqs,
        generateImageWithRunway w attempt prompt filename refImage
        = (None, reqs) /\ length reqs = 3%nat)
  /\ (forall scenes i (sc : scene),
        scenes !! i = Some sc ->
        (forall k, (k < 3)%nat -> imageAttempt w i k <> ImageSaved) ->
        exists v,
          generateVisualsForScenes w scenes !! i = Some v
          /\ imagePath v = None /\ length (requests v) = 3%nat)
  /\ (forall videoScripts imagePaths i script,
        videoScripts !! i = Some script ->
        (forall k, (k < 3)%nat -> videoAttempt w i k = false) ->
        exists videoPaths log attempts,
          generateVideoWithRunway w videoScripts imagePaths
          = (Returns videoPaths, log)
          /\ videoPaths !! i = Some None
          /\ log !! i = Some attempts /\ length attempts = 3%nat).
Proof.
  split; [|split].
  - intros attempt prompt filename refImage Hfail. eexists.
    rewrite (generateImageWithRunway_exhausted attempt prompt filename
               refImage Hfail). split; reflexivity.
  - intros scenes i sc Hsc Hfail. unfold generateVisualsForScenes.
    destruct (visualsLoop_step scenes 0 "None" i sc Hsc)
      as (ref_i & _ & Hlook & _).
    cbv zeta in Hlook. eexists. split; [exact Hlook|].
    rewrite (generateImageWithRunway_exhausted (imageAttempt w (0 + i))
               (text sc) _ _ Hfail). split; reflexivity.
  - intros videoScripts imagePaths i script Hscript Hfail.
    unfold generateVideoWithRunway.
    destruct (clipsLoop_lookup videoScripts imagePaths 0 i script Hscript)
      as (slot & Hslot & Hpath & Hlog).
    cbv zeta in Hslot, Hpath, Hlog.
    rewrite (clipRetryLoop_exhausted (videoAttempt w (0 + i)) _ script _ Hfail)
      in Hslot, Hlog.
    cbn [fst snd] in Hslot, Hlog. injection Hslot as <-.
    destruct (clipsLoop w 0 videoScripts imagePaths) as [paths log].
    cbn [fst snd] in Hpath, Hlog.
    exists paths, log. eexists. split; [reflexivity|].
    split; [exact Hpath|]. split; [exact Hlog|reflexivity].
Qed.

End StageFacts.

(** The registry of the example: one task, then an update of it. *)
Lemma updateTask_merges_witness :
  exists t',
    TaskManager.updateTask 7 "3f2a" (progressUpdate 30 "Script generated")
      (snd (TaskManager.createTask "3f2a" 1 "video" VNull ∅))
    = (Returns t',
       <["3f2a" := t']> (snd (TaskManager.createTask "3f2a" 1 "video" VNull ∅)))
    /\ t' !! "updatedAt" = Some (VDate 7)
    /\ t' !! "progress" = Some (VNumber 30)
    /\ t' !! "status" = Some (VString "pending").
Proof.
  pose proof (updateTask_merges 7 "3f2a" (progressUpdate 30 "Script generated")
                (snd (TaskManager.createTask "3f2a" 1 "video" VNull ∅)))
    as [_ H].
  change (snd (TaskManager.createTask "3f2a" 1 "video" VNull ∅) !! "3f2a")
    with (Some (fst (TaskManager.createTask "3f2a" 1 "video" VNull ∅))) in H.
  destruct H as (t' & Hrun & Hdate & Hnew & Hold & _).
  exists t'. split; [exact Hrun|]. split; [exact Hdate|]. split.
  - apply Hnew; [discriminate|reflexivity].
  - rewrite Hold; [reflexivity|discriminate|reflexivity].
Defined.

(** In the world [eclipse] the image of the second scene fails three
    times and the third scene is asked with the reference that the
    second was asked with. *)
Lemma failed_scene_keeps_reference_witness :
  exists v v',
    generateVisualsForScenes eclipse dayScenes !! 1%nat = Some v
    /\ generateVisualsForScenes eclipse dayScenes !! 2%nat = Some v'
    /\ imagePath v = None
    /\ requests v <> [] /\ requests v' <> []
    /\ (forall r r', r ∈ requests v -> r' ∈ requests v' ->
          referenceImages r' = referenceImages r)
    /\ exists sc' ref,
         dayScenes !! 2%nat = Some sc'
         /\ (forall r', r' ∈ requests v' ->
               r' = request (text sc') (Some ref))
         /\ ref = getImageAsDataUri eclipse "output/image_01.png".
Proof.
  destruct (generateVisualsForScenes eclipse dayScenes !! 0%nat) as [v0|] eqn:Hv0;
    [|vm_compute in Hv0; discriminate].
  destruct (generateVisualsForScenes eclipse dayScenes !! 1%nat) as [v|] eqn:Hv;
    [|vm_compute in Hv; discriminate].
  destruct (generateVisualsForScenes eclipse dayScenes !! 2%nat) as [v'|] eqn:Hv';
    [|vm_compute in Hv'; discriminate].
  pose proof Hv0 as Hv00. vm_compute in Hv00. injection Hv00 as Hv00.
  pose proof Hv as Hv1. vm_compute in Hv1. injection Hv1 as Hv1.
  assert (Hsaved : imagePath v0 = Some "output/image_01.png")
    by (rewrite <- Hv00; reflexivity).
  assert (Hnull : imagePath v = None) by (rewrite <- Hv1; reflexivity).
  destruct (failed_scene_keeps_reference eclipse dayScenes 1 v v' Hv Hv' Hnull)
    as (Hreqs & Hreqs' & Hsame & sc' & ref & Hsc' & Hall & _ & Hlast).
  exists v, v'. split; [reflexivity|]. split; [reflexivity|].
  split; [exact Hnull|]. split; [exact Hreqs|]. split; [exact Hreqs'|].
  split; [exact Hsame|]. exists sc', ref. split; [exact Hsc'|].
  split; [exact Hall|].
  apply (Hlast 0%nat v0 "output/image_01.png");
    [lia|exact Hv0|exact Hsaved|reflexivity|].
  intros m vm Hm. lia.
Defined.

(** C2 as stated fails in the world [eclipse]: the slot of the second
    scene is [null], and the one request for the third scene carries a
    reference, the image saved for the first scene. *)
Lemma failed_scene_reference_counterexample :
  let visuals := generateVisualsForScenes eclipse dayScenes in
  imagePath <$> visuals !! 1%nat = Some None
  /\ (map referenceImages ∘ requests) <$> visuals !! 2%nat
     = Some [Some "data:image/png;base64,iVBORw0KGgo="]
  /\ getImageAsDataUri eclipse "output/image_01.png"
     = "data:image/png;base64,iVBORw0KGgo=".
Proof. vm_compute. repeat split. Qed.

(** In the world [eclipse] the second scene is attempted three times in
    each stage and its slots are [null]. *)
Lemma exhausted_retries_yield_null_witness :
  (exists reqs,
      generateImageWithRunway eclipse (fun _ => TaskFailedError) "Dawn"
        (Some "image_01.png") None = (None, reqs)
      /\ length reqs = 3%nat)
  /\ (exists v,
        generateVisualsForScenes eclipse dayScenes !! 1%nat = Some v
        /\ imagePath v = None /\ length (requests v) = 3%nat)
  /\ (exists videoPaths log attempts,
        generateVideoWithRunway eclipse ["dawn"; "noon"; "dusk"]
          [Some "output/image_01.png"; None; Some "output/image_03.png"]
        = (Returns videoPaths, log)
        /\ videoPaths !! 1%nat = Some None
        /\ log !! 1%nat = Some attempts /\ length attempts = 3%nat).
Proof.
  destruct (exhausted_retries_yield_null (A:=exactArith) eclipse)
    as (Himage & Hvisual & Hclip).
  split; [|split].
  - apply Himage. intros k _. discriminate.
  - destruct (lookup_lt_is_Some_2 dayScenes 1%nat) as [sc Hsc];
      [vm_compute; lia|].
    apply (Hvisual dayScenes 1%nat sc Hsc). intros k _. discriminate.
  - apply (Hclip ["dawn"; "noon"; "dusk"] _ 1%nat "noon"); [reflexivity|].
    intros k _. reflexivity.
Defined.

(** ** The assembly stage *)

Section AssemblyFacts.
Context (w : World).


End AssemblyFacts.



(** ** The orchestrator *)

Section OrchestratorFacts.
Context {A : Arith} (w : World).

Lemma with_trace_id (st : state) : with_trace st (trace st) = st.
Proof. destruct st; reflexivity. Qed.

(** *** Computations that leave the registry alone *)

Lemma traceOnly_ret {X} (x : X) : traceOnly (ret x).
Proof. intros st. exists (Returns x), (trace st). now rewrite with_trace_id. Qed.

Lemma traceOnly_throw {X} (message : string) : traceOnly (@throw X message).
Proof.
  intros st. exists (Throws message), (trace st). now rewrite with_trace_id.
Qed.

Lemma traceOnly_emit (e : effect) : traceOnly (emit e).
Proof. intros st. eexists _, _. reflexivity. Qed.

Lemma traceOnly_bind {X Y} (m : M X) (k : X -> M Y) :
  traceOnly m -> (forall x, traceOnly (k x)) -> traceOnly (bind m k).
Proof.
  intros Hm Hk st. unfold bind. destruct (Hm st) as (r & tr & ->).
  destruct r as [x|e].
  - destruct (Hk x (with_trace st tr)) as (r' & tr' & ->).
    exists r', tr'. reflexivity.
  - exists (Throws e), tr. reflexivity.
Qed.

Lemma traceOnly_tryCatch {X} (m : M X) (handler : string -> M X) :
  traceOnly m -> (forall e, traceOnly (handler e)) ->
  traceOnly (tryCatch m handler).
Proof.
  intros Hm Hh st. unfold tryCatch. destruct (Hm st) as (r & tr & ->).
  destruct r as [x|e].
  - exists (Returns x), tr. reflexivity.
  - destruct (Hh e (with_trace st tr)) as (r' & tr' & ->).
    exists r', tr'. reflexivity.
Qed.

Lemma traceOnly_generateScript (prompt : string) :
  traceOnly (generateScript w prompt).
Proof.
  unfold generateScript. apply traceOnly_bind; [apply traceOnly_emit|].
  intros _. destruct (scriptCompletion w prompt);
    [apply traceOnly_ret|apply traceOnly_throw].
Qed.

Lemma traceOnly_motionLoop (i : nat) (scenes : list scene) :
  traceOnly (motionLoop w i scenes).
Proof.
  revert i. induction scenes as [|s rest IH]; intros i; cbn [motionLoop].
  - apply traceOnly_ret.
  - apply traceOnly_bind; [apply traceOnly_emit|]. intros _.
    destruct (motionCompletion w i (text s)); [|apply traceOnly_throw].
    apply traceOnly_bind; [apply IH|]. intros x. apply traceOnly_ret.
Qed.

Lemma traceOnly_mapM {X Y} (f : X -> M Y) (l : list X) :
  (forall x, traceOnly (f x)) -> traceOnly (mapM f l).
Proof.
  intros Hf. induction l as [|x l IH]; cbn [mapM]; [apply traceOnly_ret|].
  apply traceOnly_bind; [apply Hf|]. intros y.
  apply traceOnly_bind; [apply IH|]. intros ys. apply traceOnly_ret.
Qed.

Lemma traceOnly_createFFmpegConcatenationCommand
    (videoPaths : list string) (outputPath : string) :
  traceOnly (createFFmpegConcatenationCommand w videoPaths outputPath).
Proof.
  assert (Hconcat :
    traceOnly
      (bind (mapM (absolutePath w) videoPaths)
         (fun absoluteVideoPaths =>
            bind (fsWriteFile w
                    (path_join w (path_dirname w outputPath) "filelist.txt")
                    (joinLines
                       (map (fun videoPath =>
                               "file '" +:+ forwardSlashes videoPath +:+ "'")
                          absoluteVideoPaths)))
              (fun _ =>
                 ret ("ffmpeg -f concat -safe 0 -i " +:+ dquote
                      +:+ path_join w (path_dirname w outputPath) "filelist.txt"
                      +:+ dquote +:+ " -c copy " +:+ dquote +:+ outputPath
                      +:+ dquote))))).
  { apply traceOnly_bind.
    - apply traceOnly_mapM. intros p. unfold absolutePath.
      destruct (path_isAbsolute w p); [apply traceOnly_ret|].
      destruct (split backslash p !! 1%nat);
        [apply traceOnly_ret|apply traceOnly_throw].
    - intros paths. apply traceOnly_bind; [|intros _; apply traceOnly_ret].
      unfold fsWriteFile. apply traceOnly_bind; [apply traceOnly_emit|].
      intros _. destruct (writeFile w _ _);
        [apply traceOnly_ret|apply traceOnly_throw]. }
  unfold createFFmpegConcatenationCommand.
  destruct videoPaths as [|p [|q rest]];
    [exact Hconcat|apply traceOnly_ret|exact Hconcat].
Qed.

(** Assembly returns, with the registry untouched. *)
Lemma concatenateVideos_returns (videoPaths : list (option string))
    (st : state) :
  exists r tr, concatenateVideos w videoPaths st = (Returns r, with_trace st tr).
Proof.
  unfold concatenateVideos, tryCatch.
  match goal with
  | |- context [match ?m st with _ => _ end] =>
      assert (Hbody : traceOnly m)
  end.
  { destruct (Nat.eqb (length videoPaths) 0); [apply traceOnly_ret|].
    destruct (Nat.eqb (length (validPaths w videoPaths)) 0);
      [apply traceOnly_ret|].
    apply traceOnly_bind;
      [apply traceOnly_createFFmpegConcatenationCommand|].
    intros command. apply traceOnly_bind.
    { unfold execAsync. apply traceOnly_bind; [apply traceOnly_emit|].
      intros _. destruct (exec w command);
        [apply traceOnly_ret|apply traceOnly_throw]. }
    intros _. apply traceOnly_bind; [|intros _; apply traceOnly_ret].
    destruct (pathExists w _); [|apply traceOnly_ret].
    unfold fsRemove. apply traceOnly_bind; [apply traceOnly_emit|].
    intros _. destruct (remove w _);
      [apply traceOnly_ret|apply traceOnly_throw]. }
  destruct (Hbody st) as (r & tr & ->). destruct r as [x|e].
  - exists x, tr. reflexivity.
  - exists None, tr. reflexivity.
Qed.

(** *** The updates of a run *)

Local Notation reaches := (VideoGenerator.reaches w).

Lemma update_step {X} (taskId : string) (u : task) (k : M X) (st : state) :
  is_Some (tasks st !! taskId) ->
  bind (updateTask w taskId u)
    (fun _ => bind (broadcastTaskUpdate taskId) (fun _ => k)) st
  = k (runUpdates w taskId [u] st).
Proof.
  intros [t Ht]. cbn [runUpdates]. unfold updateAndBroadcast, bind, updateTask,
    TaskManager.updateTask, broadcastTaskUpdate. rewrite Ht. reflexivity.
Qed.

Lemma runUpdates_app (taskId : string) (us1 us2 : list task) (st : state) :
  runUpdates w taskId (us1 ++ us2) st
  = runUpdates w taskId us2 (runUpdates w taskId us1 st).
Proof.
  revert st. induction us1 as [|u us1 IH]; intros st; [reflexivity|].
  cbn [app runUpdates]. apply IH.
Qed.

Lemma runUpdates_with_trace (taskId : string) (us : list task) (st : state)
    (tr : list effect) :
  runUpdates w taskId us (with_trace st tr)
  = with_trace (runUpdates w taskId us st) tr.
Proof.
  revert st. induction us as [|u us IH]; intros st; [reflexivity|].
  cbn [runUpdates].
  replace (snd (updateAndBroadcast w taskId u (with_trace st tr)))
    with (with_trace (snd (updateAndBroadcast w taskId u st)) tr); [apply IH|].
  unfold updateAndBroadcast, bind, updateTask, TaskManager.updateTask,
    broadcastTaskUpdate.
  cbn [with_trace tasks ticks writes sent trace].
  destruct (tasks st !! taskId); reflexivity.
Qed.

Lemma present_runUpdates (taskId : string) (us : list task) (st : state) :
  is_Some (tasks st !! taskId) ->
  is_Some (tasks (runUpdates w taskId us st) !! taskId).
Proof.
  revert st. induction us as [|u us IH]; intros st Hp; [exact Hp|].
  cbn [runUpdates]. apply IH. destruct Hp as [t Ht].
  unfold updateAndBroadcast, bind, updateTask, TaskManager.updateTask,
    broadcastTaskUpdate. rewrite Ht. cbn [snd tasks].
  rewrite lookup_insert_eq. eexists. reflexivity.
Qed.

Lemma reaches_refl (taskId : string) (st : state) : reaches taskId st [] st.
Proof. exists (trace st). cbn [runUpdates]. now rewrite with_trace_id. Qed.

Lemma reaches_trace (taskId : string) (st st' : state) (us : list task)
    (tr : list effect) :
  reaches taskId st us st' -> reaches taskId st us (with_trace st' tr).
Proof. intros [tr0 ->]. exists tr. reflexivity. Qed.

Lemma reaches_update (taskId : string) (st st' : state) (us : list task)
    (u : task) :
  reaches taskId st us st' ->
  reaches taskId st (us ++ [u]) (runUpdates w taskId [u] st').
Proof.
  intros [tr ->]. exists tr.
  now rewrite runUpdates_with_trace, runUpdates_app.
Qed.

Lemma reaches_present (taskId : string) (st st' : state) (us : list task) :
  is_Some (tasks st !! taskId) -> reaches taskId st us st' ->
  is_Some (tasks st' !! taskId).
Proof.
  intros Hp [tr ->]. cbn [with_trace tasks]. now apply present_runUpdates.
Qed.

Lemma trace_runUpdates (taskId : string) (us : list task) (st : state) :
  trace (runUpdates w taskId us st) = trace st.
Proof.
  revert st. induction us as [|u us IH]; intros st; [reflexivity|].
  cbn [runUpdates]. rewrite IH.
  unfold updateAndBroadcast, bind, updateTask, TaskManager.updateTask,
    broadcastTaskUpdate.
  destruct (tasks st !! taskId); reflexivity.
Qed.

(** The writes of a sequence of updates of a task that is present, the
    task at the end and the messages broadcast. *)
Lemma writes_runUpdates (taskId : string) (us : list task) (st : state)
    (t : task) :
  tasks st !! taskId = Some t ->
  writes (runUpdates w taskId us st)
  = writes st ++ map (pair taskId) (applyUpdates w (ticks st) t us)
  /\ tasks (runUpdates w taskId us st) !! taskId
     = Some (List.last (applyUpdates w (ticks st) t us) t)
  /\ sent (runUpdates w taskId us st)
     = sent st
       ++ map (fun t' => (taskId, Some t')) (applyUpdates w (ticks st) t us).
Proof.
  revert st t. induction us as [|u us IH]; intros st t Ht.
  - cbn. split; [now rewrite app_nil_r|]. split; [exact Ht|].
    now rewrite app_nil_r.
  - cbn [runUpdates applyUpdates map].
    unfold updateAndBroadcast, bind, updateTask, TaskManager.updateTask,
      broadcastTaskUpdate. rewrite Ht. cbn [snd tasks ticks writes sent trace].
    match goal with
    | |- context [runUpdates w taskId us ?s] =>
        destruct (IH s (assign t u (clock w (ticks st)))) as (Hw & Hl & Hs);
          [cbn [tasks]; apply lookup_insert_eq|]
    end.
    cbn [ticks writes sent] in Hw, Hl, Hs. rewrite Hw, Hl, Hs.
    split; [|split].
    + now rewrite <- app_assoc.
    + destruct (applyUpdates w (S (ticks st)) (assign t u (clock w (ticks st))) us)
        as [|g l]; [reflexivity|].
      f_equal.
      change (List.last (g :: l) (assign t u (clock w (ticks st)))
              = List.last (g :: l) t).
      clear. revert g. induction l as [|x l IHl]; intros g; [reflexivity|].
      change (List.last (x :: l) (assign t u (clock w (ticks st)))
              = List.last (x :: l) t).
      apply IHl.
    + unfold getTask. rewrite lookup_insert_eq. now rewrite <- app_assoc.
Qed.

(** What [generate] does to the task: the three updates of its stages,
    or a first part of them when it throws. *)
Lemma generate_run (scenes : list scene) (taskId : string) (st : state) :
  is_Some (tasks st !! taskId) ->
  exists r us st',
    generate w scenes taskId st = (r, st')
    /\ reaches taskId st us st'
    /\ ((exists n, (1 <= n <= 3)%nat /\ us = take n generateMilestones
                   /\ r = Throws "Failed to generate video with RunwayML")
        \/ (us = generateMilestones /\ exists v, r = Returns v)).
Proof.
  intros Hp. unfold generate, tryCatch.
  rewrite (update_step taskId _ _ st Hp).
  pose proof (reaches_update taskId st st []
                (progressUpdate 40 "Generating images for scenes...")
                (reaches_refl taskId st)) as R1.
  cbn [app] in R1.
  set (s1 := runUpdates w taskId [progressUpdate 40 "Generating images for scenes..."] st)
    in *.
  unfold bind at 1, emit at 1.
  match goal with
  | |- context [with_trace s1 ?tr] =>
      pose proof (reaches_trace taskId st s1 _ tr R1) as R1';
      set (s1' := with_trace s1 tr) in *
  end.
  destruct (Nat.eqb (length (map imagePath (generateVisualsForScenes w scenes))) 0).
  { eexists _, _, _. split; [reflexivity|]. split; [exact R1'|].
    left. exists 1%nat. repeat split; lia. }
  unfold bind at 1.
  destruct (traceOnly_motionLoop 0 scenes s1') as (r & tr & ->).
  pose proof (reaches_trace taskId st s1' _ tr R1') as R1''.
  destruct r as [videoScripts|e].
  2:{ eexists _, _, _. split; [reflexivity|]. split; [exact R1''|].
      left. exists 1%nat. repeat split; lia. }
  rewrite (update_step taskId _ _ _ (reaches_present _ _ _ _ Hp R1'')).
  pose proof (reaches_update taskId st _ _
                (progressUpdate 60 "Generating videos from images...") R1'') as R2.
  cbn [app] in R2.
  match type of R2 with
  | reaches _ _ _ ?s => set (s2 := s) in *
  end.
  unfold generateVideoWithRunway.
  destruct (clipsLoop w 0 videoScripts
              (map imagePath (generateVisualsForScenes w scenes)))
    as [videoPaths log].
  unfold bind at 1, emit at 1.
  match goal with
  | |- context [with_trace s2 ?tr] =>
      pose proof (reaches_trace taskId st s2 _ tr R2) as R2';
      set (s2' := with_trace s2 tr) in *
  end.
  destruct (Nat.ltb 0 (length videoPaths)).
  2:{ eexists _, _, _. split; [reflexivity|]. split; [exact R2'|].
      left. exists 2%nat. repeat split; lia. }
  rewrite (update_step taskId _ _ _ (reaches_present _ _ _ _ Hp R2')).
  pose proof (reaches_update taskId st _ _
                (progressUpdate 80 "Concatenating videos with transitions...")
                R2') as R3.
  cbn [app] in R3.
  match type of R3 with
  | reaches _ _ _ ?s => set (s3 := s) in *
  end.
  unfold bind at 1.
  destruct (concatenateVideos_returns videoPaths s3) as (final & tr3 & ->).
  unfold ret. eexists _, _, _. split; [reflexivity|].
  split; [exact (reaches_trace taskId st s3 _ tr3 R3)|].
  right. split; [reflexivity|]. eexists. reflexivity.
Qed.

Lemma reaches_trans (taskId : string) (st st' st'' : state)
    (us us' : list task) :
  reaches taskId st us st' -> reaches taskId st' us' st'' ->
  reaches taskId st (us ++ us') st''.
Proof.
  intros [tr ->] [tr' ->]. exists tr'.
  rewrite runUpdates_with_trace, runUpdates_app. reflexivity.
Qed.

(** The handler of [generateVideo]: the task is marked failed with the
    message of the error, which is thrown again. *)
Lemma failure_handler (taskId message : string) (st0 st : state)
    (us : list task) :
  is_Some (tasks st0 !! taskId) -> reaches taskId st0 us st ->
  exists st',
    bind (updateTask w taskId (failedUpdate message))
      (fun _ => bind (broadcastTaskUpdate taskId)
                  (fun _ => @throw string message)) st
    = (Throws message, st')
    /\ reaches taskId st0 (us ++ [failedUpdate message]) st'.
Proof.
  intros Hp R. rewrite (update_step taskId _ _ _ (reaches_present _ _ _ _ Hp R)).
  eexists. split; [reflexivity|]. now apply reaches_update.
Qed.

(** What [generateVideo] does to a task that is in the registry: a first
    part of the milestones and then the failure, or all the milestones
    and then the completion. *)
Lemma generateVideo_run (prompt taskId : string) (st : state) :
  is_Some (tasks st !! taskId) ->
  exists r us st',
    generateVideo w prompt taskId st = (r, st')
    /\ reaches taskId st us st'
    /\ ((exists n message,
            (1 <= n <= 5)%nat
            /\ us = take n milestones ++ [failedUpdate message]
            /\ r = Throws message)
        \/ (exists path,
              us = milestones ++ [completedUpdate path] /\ r = Returns path)).
Proof.
  intros Hp. unfold generateVideo, tryCatch.
  rewrite (update_step taskId _ _ st Hp).
  pose proof (reaches_update taskId st st [] runningUpdate
                (reaches_refl taskId st)) as R1.
  cbn [app] in R1.
  set (s1 := runUpdates w taskId [runningUpdate] st) in *.
  unfold bind at 1.
  destruct (traceOnly_generateScript prompt s1) as (r & tr & ->).
  pose proof (reaches_trace taskId st s1 _ tr R1) as R1'.
  destruct r as [scriptResponse|e].
  2:{ destruct (failure_handler taskId e st _ _ Hp R1') as (st' & -> & R).
      eexists _, _, _. split; [reflexivity|]. split; [exact R|].
      left. exists 1%nat, e. repeat split; lia. }
  destruct (Nat.eqb (length (parseScene scriptResponse)) 0).
  { unfold throw at 1.
    destruct (failure_handler taskId "Failed to parse scenes from script"
                st _ _ Hp R1') as (st' & -> & R).
    eexists _, _, _. split; [reflexivity|]. split; [exact R|].
    left. exists 1%nat, "Failed to parse scenes from script".
    repeat split; lia. }
  rewrite (update_step taskId _ _ _ (reaches_present _ _ _ _ Hp R1')).
  pose proof (reaches_update taskId st _ _
                (progressUpdate 30 "Script generated, creating video...") R1')
    as R2.
  cbn [app] in R2.
  match type of R2 with
  | reaches _ _ _ ?s => set (s2 := s) in *
  end.
  unfold bind at 1.
  destruct (generate_run (take 1 (parseScene scriptResponse)) taskId s2
              (reaches_present _ _ _ _ Hp R2))
    as (r & usg & s3 & -> & Rg & Hshape).
  pose proof (reaches_trans taskId st s2 s3 _ usg R2 Rg) as R3.
  destruct Hshape as [(n & Hn & -> & ->)|(-> & v & ->)].
  - destruct (failure_handler taskId "Failed to generate video with RunwayML"
                st _ _ Hp R3) as (st' & -> & R).
    eexists _, _, _. split; [reflexivity|]. split; [exact R|].
    left. exists (2 + n)%nat, "Failed to generate video with RunwayML".
    split; [lia|]. split; [|reflexivity].
    destruct n as [|[|[|n]]]; try lia; reflexivity.
  - destruct (truthy v).
    + rewrite (update_step taskId _ _ _ (reaches_present _ _ _ _ Hp R3)).
      unfold ret. eexists _, _, _. split; [reflexivity|].
      split; [exact (reaches_update taskId st _ _ _ R3)|].
      right. eexists. split; reflexivity.
    + unfold throw at 1.
      destruct (failure_handler taskId "Video generation failed"
                  st _ _ Hp R3) as (st' & -> & R).
      eexists _, _, _. split; [reflexivity|]. split; [exact R|].
      left. exists 5%nat, "Video generation failed". repeat split; lia.
Qed.

Lemma statusOf_assign (t u : task) (now : Z) :
  statusOf (assign t u now)
  = match u !! "status" with
    | Some (VString s) => Some s
    | Some _ => None
    | None => statusOf t
    end.
Proof.
  unfold statusOf. rewrite assign_lookup.
  destruct (decide ("status" = "updatedAt")); [discriminate|].
  destruct (u !! "status"); reflexivity.
Qed.

Lemma progressOf_assign (t u : task) (now : Z) :
  progressOf (assign t u now)
  = match u !! "progress" with
    | Some (VNumber n) => Some n
    | Some _ => None
    | None => progressOf t
    end.
Proof.
  unfold progressOf. rewrite assign_lookup.
  destruct (decide ("progress" = "updatedAt")); [discriminate|].
  destruct (u !! "progress"); reflexivity.
Qed.

Lemma errorOf_assign (t u : task) (now : Z) :
  errorOf (assign t u now)
  = match u !! "error" with
    | Some (VString s) => Some s
    | Some _ => None
    | None => errorOf t
    end.
Proof.
  unfold errorOf. rewrite assign_lookup.
  destruct (decide ("error" = "updatedAt")); [discriminate|].
  destruct (u !! "error"); reflexivity.
Qed.

(** C6.  When the script parses to no scene, [generateVideo] marks the
    task failed with the message of the error it throws, right after
    the update that marked it running; the only request made is the one
    for the script, made once: no stage runs and nothing is tried
    again. *)
Theorem no_scenes_fails_task (prompt taskId script : string) (st : state)
    (t : task) :
  tasks st !! taskId = Some t ->
  scriptCompletion w prompt = Some script ->
  parseScene script = [] ->
  exists st' t1 t2,
    generateVideo w prompt taskId st
    = (Throws "Failed to parse scenes from script", st')
    /\ trace st' = trace st ++ [ScriptRequest prompt]
    /\ writes st' = writes st ++ [(taskId, t1); (taskId, t2)]
    /\ sent st' = sent st ++ [(taskId, Some t1); (taskId, Some t2)]
    /\ tasks st' !! taskId = Some t2
    /\ statusOf t1 = Some "running"
    /\ statusOf t2 = Some "failed"
    /\ errorOf t2 = Some "Failed to parse scenes from script"
    /\ progressOf t2 = Some 10.
Proof.
  intros Ht Hscript Hparse. unfold generateVideo, tryCatch.
  rewrite (update_step taskId _ _ st (mk_is_Some _ _ Ht)).
  unfold bind at 1, generateScript, bind at 1, emit.
  rewrite Hscript. unfold ret at 1. cbv beta iota.
  rewrite Hparse. cbn [length Nat.eqb]. unfold throw at 1. cbv beta iota.
  rewrite update_step
    by (cbn [with_trace tasks]; apply present_runUpdates; eexists; exact Ht).
  unfold throw. rewrite trace_runUpdates, runUpdates_with_trace.
  rewrite <- (runUpdates_app taskId [runningUpdate]).
  destruct (writes_runUpdates taskId
              ([runningUpdate]
               ++ [failedUpdate "Failed to parse scenes from script"]) st t Ht)
    as (Hw & Hl & Hs).
  cbn [app applyUpdates map List.last] in Hw, Hl, Hs.
  eexists _, _, _. split; [reflexivity|].
  cbn [with_trace tasks ticks writes sent trace].
  split; [reflexivity|]. split; [exact Hw|]. split; [exact Hs|].
  split; [exact Hl|].
  rewrite !statusOf_assign, errorOf_assign, !progressOf_assign.
  repeat split.
Qed.

(** C7.  The values of a task written to the registry while the
    orchestrator drives it: the progress never decreases, and the state
    goes from pending to running and from running to completed or to
    failed, where it stays. *)
Theorem task_history_monotone (prompt : string) (st : state) :
  exists history ps ss,
    writes (snd (postVideo w prompt st))
    = writes st ++ map (pair (uuidv4 w (ticks st))) history
    /\ map progressOf history = map Some ps
    /\ map statusOf history = map Some ss
    /\ StronglySorted Z.le ps
    /\ (changes ss = ["pending"; "running"; "completed"]
        \/ changes ss = ["pending"; "running"; "failed"]).
Proof.
  unfold postVideo. unfold bind at 1, createTask, TaskManager.createTask.
  set (taskId := uuidv4 w (ticks st)).
  set (t0 := list_to_map _ : task).
  assert (Hid : t0 !! "id" = Some (VString taskId)) by reflexivity.
  rewrite Hid.
  set (s0 := {| tasks := <[taskId := t0]> (tasks st);
                ticks := S (S (ticks st));
                writes := writes st ++ [(taskId, t0)];
                sent := sent st; trace := trace st |}).
  assert (Ht0 : tasks s0 !! taskId = Some t0) by apply lookup_insert_eq.
  destruct (generateVideo_run prompt taskId s0 (mk_is_Some _ _ Ht0))
    as (r & us & st' & Hrun & [tr ->] & Hshape).
  destruct (writes_runUpdates taskId us s0 t0 Ht0) as (Hw & _ & _).
  exists (t0 :: applyUpdates w (ticks s0) t0 us).
  assert (Hwrites :
    writes (snd (bind (tryCatch (bind (generateVideo w prompt taskId)
                                   (fun _ => ret tt))
                         (fun _ => ret tt))
                   (fun _ => ret taskId) s0))
    = writes st ++ map (pair taskId) (t0 :: applyUpdates w (ticks s0) t0 us)).
  { unfold bind, tryCatch, ret. rewrite Hrun.
    destruct r; cbn [snd with_trace writes]; rewrite Hw; cbn [s0 writes map];
      now rewrite <- app_assoc. }
  assert (Hp0 : progressOf t0 = Some 0) by reflexivity.
  assert (Hs0 : statusOf t0 = Some "pending") by reflexivity.
  clearbody t0. clear Hw Hrun Hid Ht0. 
  destruct Hshape as [(n & message & Hn & -> & _)|(path & -> & _)].
  - destruct n as [|[|[|[|[|[|n]]]]]]; try lia;
      [exists [0; 10; 10], ["pending"; "running"; "failed"]
      |exists [0; 10; 30; 30], ["pending"; "running"; "running"; "failed"]
      |exists [0; 10; 30; 40; 40],
         ["pending"; "running"; "running"; "running"; "failed"]
      |exists [0; 10; 30; 40; 60; 60],
         ["pending"; "running"; "running"; "running"; "running"; "failed"]
      |exists [0; 10; 30; 40; 60; 80; 80],
         ["pending"; "running"; "running"; "running"; "running"; "running";
          "failed"]];
      (split; [exact Hwrites|]);
      cbn [take milestones generateMilestones app applyUpdates map];
      rewrite ?progressOf_assign, ?statusOf_assign, Hp0, Hs0;
      (split; [reflexivity|]); (split; [reflexivity|]);
      (split; [repeat constructor; lia|right; reflexivity]).
  - exists [0; 10; 30; 40; 60; 80; 100],
      ["pending"; "running"; "running"; "running"; "running"; "running";
       "completed"].
    split; [exact Hwrites|].
    cbn [take milestones generateMilestones app applyUpdates map].
    rewrite ?progressOf_assign, ?statusOf_assign, Hp0, Hs0.
    split; [reflexivity|]. split; [reflexivity|].
    split; [repeat constructor; lia|left; reflexivity].
Qed.

End OrchestratorFacts.

(** A task is submitted and the provider answers a text without any
    scene: the task fails at once and only the script was asked for. *)
Lemma no_scenes_fails_task_witness :
  exists st' t1 t2,
    generateVideo (A:=exactArith) silent "A day at the sea" "3f2a" submitted
    = (Throws "Failed to parse scenes from script", st')
    /\ trace st' = trace submitted ++ [ScriptRequest "A day at the sea"]
    /\ writes st' = writes submitted ++ [("3f2a", t1); ("3f2a", t2)]
    /\ sent st' = sent submitted ++ [("3f2a", Some t1); ("3f2a", Some t2)]
    /\ tasks st' !! "3f2a" = Some t2
    /\ statusOf t1 = Some "running"
    /\ statusOf t2 = Some "failed"
    /\ errorOf t2 = Some "Failed to parse scenes from script"
    /\ progressOf t2 = Some 10.
Proof.
  assert (Ht : exists t, tasks submitted !! "3f2a" = Some t).
  { eexists. unfold submitted, createTask, TaskManager.createTask.
    cbn [snd tasks]. apply lookup_insert_eq. }
  destruct Ht as [t Ht].
  apply (no_scenes_fails_task (A:=exactArith) silent "A day at the sea" "3f2a"
           "A poem, not a script." submitted t Ht).
  - reflexivity.
  - apply nil_length_inv. vm_compute. reflexivity.
Defined.

(** ** The example scenario and scripts with unparseable fields *)

(** C1 on the code.  The script of the example decomposes into two
    scenes that start at 0 and 10 and end at 10 and 20, and when every
    generation succeeds the task is completed with progress 100; but the
    orchestrator hands the first scene only to [generate]: one clip is
    made and the media tool copies [video_01.mp4] alone into the final
    video. *)
Theorem example_scenario_first_clip_only :
  map (fun s => (scene_number s, start_time s, end_time s))
    (parseScene (A:=exactArith) sunriseScript)
  = [(Int 1, EFin (Qmake 0 1), EFin (Qmake 10 1));
     (Int 2, EFin (Qmake 10 1), EFin (Qmake 20 1))]
  /\ (let '(r, st) :=
        postVideo (A:=exactArith) (sunny sunriseScript) "A day at the sea"
          start in
      r = Returns "3f2a"
      /\ clipScenes (trace st) = [1%nat]
      /\ executed (trace st)
         = ["ffmpeg -i " +:+ dquote +:+ "output/video_01.mp4" +:+ dquote
            +:+ " -c copy " +:+ dquote
            +:+ "output/combined_video_2025-07-20T10-00-00.mp4" +:+ dquote]
      /\ (tasks st !! "3f2a") ≫= statusOf = Some "completed"
      /\ (tasks st !! "3f2a") ≫= progressOf = Some 100).
Proof. vm_compute. repeat split. Qed.

(** C3 on the code.  A line whose scene number does not parse is kept as
    a scene numbered NaN, which no comparison orders: the scenes
    returned are not in ascending order of their numbers, and in the
    second script scene 3 comes before scene 1. *)
Theorem unparseable_number_breaks_order :
  (let out := parseScene (A:=exactArith) unnumberedScript in
   map scene_number out = [NaN; Int 1]
   /\ ~ (forall i j a b, (i < j)%nat -> out !! i = Some a -> out !! j = Some b ->
                        number_le a b))
  /\ map scene_number (parseScene (A:=exactArith) shuffledScript)
     = [Int 3; NaN; Int 1].
Proof.
  split; [|vm_compute; reflexivity].
  cbv zeta. split; [vm_compute; reflexivity|].
  intros Hsorted.
  assert (Hnumbers :
    map scene_number (parseScene (A:=exactArith) unnumberedScript)
    = [NaN; Int 1]) by (vm_compute; reflexivity).
  destruct (lookup_lt_is_Some_2 (parseScene (A:=exactArith) unnumberedScript)
              0%nat) as [a Ha]; [vm_compute; lia|].
  destruct (lookup_lt_is_Some_2 (parseScene (A:=exactArith) unnumberedScript)
              1%nat) as [b Hb]; [vm_compute; lia|].
  specialize (Hsorted 0%nat 1%nat a b ltac:(lia) Ha Hb).
  apply (f_equal (fun l => l !! 0%nat)) in Hnumbers.
  rewrite list_lookup_fmap, Ha in Hnumbers. injection Hnumbers as Hnan.
  unfold number_le in Hsorted. rewrite Hnan in Hsorted. discriminate.
Qed.

(** C5 on the code.  A line whose number and duration do not parse is
    not skipped: it yields a scene whose number and duration are NaN,
    and the scenes after it start and end at NaN. *)
Theorem unparseable_line_is_kept :
  map (fun s => (scene_number s, duration s))
    (parseScene (A:=exactArith) "SCENE X: A sunrise | Duration: soon")
  = [(NaN, ENaN)]
  /\ map (fun s => (scene_number s, duration s, start_time s, end_time s))
       (parseScene (A:=exactArith) vagueScript)
     = [(Int 1, ENaN, EFin (Qmake 0 1), ENaN);
        (Int 2, EFin (Qmake 10 1), ENaN, ENaN)].
Proof. vm_compute. repeat split. Qed.

(** * Further properties *)

Import SceneLines MoreExamples TaskSweep ImageDownload ImageTask.

(** ** More on the scene decomposer *)

Section DecomposerMore.
Context {A : Arith}.

Lemma parseLine_cases (st : list scene * number) (line : string) :
  (pushes line = false /\ parseLine st line = st)
  \/ (pushes line = true
      /\ exists sc, parseLine st line = (fst st ++ [sc], add (snd st) (duration sc))
                    /\ exists rest, text sc = realismPrefix +:+ rest).
Proof.
  destruct st as [scenes t]. unfold parseLine, pushes.
  destruct (startsWith "SCENE" line && includes "| Duration:" line);
    [|left; split; reflexivity].
  cbn [andb].
  destruct (split "| Duration:" line) as [|p0 [|p1 [|p2 ps]]];
    try (left; split; reflexivity).
  right. split; [reflexivity|]. cbn [fst snd].
  match goal with
  | |- context [scenes ++ [?x]] => exists x
  end.
  split; [reflexivity|]. cbn [text]. eexists. reflexivity.
Qed.

Lemma fold_parseLine (lines : list string) (st : list scene * number) :
  length (fst (fold_left parseLine lines st))
  = (length (fst st) + length (List.filter pushes lines))%nat
  /\ (Forall (fun s => exists rest, text s = realismPrefix +:+ rest) (fst st) ->
      Forall (fun s => exists rest, text s = realismPrefix +:+ rest)
        (fst (fold_left parseLine lines st))).
Proof.
  revert st. induction lines as [|line lines IH]; intros st.
  - cbn. split; [lia|auto].
  - cbn [fold_left List.filter].
    destruct (parseLine_cases st line) as [[Hq ->]|(Hq & sc & -> & Htext)];
      rewrite Hq; destruct (IH st) as [IHl IHt].
    + split; assumption.
    + destruct (IH (fst st ++ [sc], add (snd st) (duration sc))) as [IHl' IHt'].
      cbn [fst] in IHl', IHt'. split.
      * rewrite IHl', length_app. cbn [length]. lia.
      * intros Hall. apply IHt'. apply Forall_app. split; [exact Hall|].
        constructor; [exact Htext|constructor].
Qed.

(** X1.  [parseScene] returns one scene for each line that starts with
    the marker and contains the delimiter exactly once; every other line,
    a line with two delimiters included, yields nothing. *)
Theorem parseScene_length (script : string) :
  length (parseScene script)
  = length (List.filter pushes (split LF script)).
Proof.
  unfold parseScene.
  destruct (fold_parseLine (split LF script) ([], zero)) as [Hlen _].
  destruct (fold_left parseLine (split LF script) ([], zero)) as [scenes t].
  cbn [fst length] in Hlen. rewrite length_retime, length_sort. exact Hlen.
Qed.

(** X2.  Every description returned starts with the realism directive. *)
Theorem parseScene_prefixed (script : string) :
  Forall (fun s => exists rest, text s = realismPrefix +:+ rest)
    (parseScene script).
Proof.
  unfold parseScene.
  destruct (fold_parseLine (split LF script) ([], zero)) as [_ Htext].
  destruct (fold_left parseLine (split LF script) ([], zero)) as [scenes t].
  cbn [fst] in Htext. specialize (Htext ltac:(constructor)).
  apply (proj2 (Forall_sort _ scenes)) in Htext.
  revert Htext. generalize (sort scenes). generalize (zero). clear.
  intros t l. revert t. induction l as [|s l IH]; intros t Hall; [constructor|].
  inversion Hall; subst. cbn [retime]. constructor; [assumption|].
  apply IH. assumption.
Qed.

Lemma retime_durations (t : number) (l : list scene) :
  map duration (retime t l) = map duration l.
Proof.
  revert t. induction l as [|s l IH]; intros t; [reflexivity|].
  cbn [retime map duration]. now rewrite IH.
Qed.

Lemma retime_start (t : number) (l : list scene) (i : nat) (s : scene) :
  retime t l !! i = Some s ->
  start_time s = fold_left add (take i (map duration l)) t.
Proof.
  revert t i. induction l as [|x l IH]; intros t i H; [discriminate|].
  destruct i as [|i].
  - cbn in H. injection H as <-. reflexivity.
  - cbn [retime] in H. cbn [map take fold_left]. exact (IH _ i H).
Qed.

(** X3.  The start time of a scene is the sum, from zero and in order,
    of the durations of the scenes before it, and its end time is its
    start time plus its own duration. *)
Theorem parseScene_start_is_prefix_sum (script : string) (i : nat)
    (s : scene) :
  parseScene script !! i = Some s ->
  start_time s
  = fold_left add (take i (map duration (parseScene script))) zero
  /\ end_time s = add (start_time s) (duration s).
Proof.
  unfold parseScene.
  destruct (fold_left parseLine (split LF script) ([], zero)) as [scenes t].
  intros H. split.
  - rewrite retime_durations. now apply retime_start.
  - pose proof (retime_end zero (sort scenes)) as Hend.
    rewrite Forall_lookup in Hend. exact (Hend i s H).
Qed.

Lemma insert_least (x : scene) (l : list scene) :
  numbered x -> Forall numbered l -> Forall (number_le x) l ->
  insert x l = x :: l.
Proof.
  intros [zx Hx] Hnum Hle. destruct l as [|y l]; [reflexivity|].
  inversion Hnum as [|? ? [zy Hy] _]; subst.
  inversion Hle as [|? ? Hxy _]; subst.
  cbn [insert]. unfold comparator. rewrite Hx, Hy. cbn [sub isNegative].
  unfold number_le in Hxy. rewrite Hx, Hy in Hxy. cbn in Hxy.
  apply Z.leb_le in Hxy.
  destruct (zy - zx <? 0) eqn:Hc; [apply Z.ltb_lt in Hc; lia|reflexivity].
Qed.

Lemma sort_ascending (l : list scene) :
  Forall numbered l -> StronglySorted number_le l -> sort l = l.
Proof.
  intros Hnum Hs. induction Hs as [|x l Hs IH Hall]; [reflexivity|].
  inversion Hnum; subst. cbn [sort foldr]. fold (sort l).
  rewrite IH by assumption. now apply insert_least.
Qed.

Lemma retime_retime (t : number) (l : list scene) :
  retime t (retime t l) = retime t l.
Proof.
  revert t. induction l as [|s l IH]; intros t; [reflexivity|].
  cbn [retime duration]. now rewrite IH.
Qed.

Lemma sort_numbers_only (l l' : list scene) :
  map scene_number l = map scene_number l' ->
  StronglySorted number_le l -> StronglySorted number_le l'.
Proof.
  revert l'. induction l as [|x l IH]; intros [|x' l'] Hm Hs;
    try discriminate; [constructor|].
  cbn in Hm. injection Hm as Hx Hm. inversion Hs as [|? ? Hs' Hall]; subst.
  constructor; [now apply IH|].
  clear IH Hs Hs'. revert l' Hm. induction Hall as [|y l Hy Hall IHall];
    intros [|y' l'] Hm; try discriminate; [constructor|].
  cbn in Hm. injection Hm as Hy' Hm. constructor; [|now apply IHall].
  unfold number_le in *. now rewrite <- Hx, <- Hy'.
Qed.

(** X4.  Where no scene number is NaN, sorting and re-timing once more
    the scenes that [parseScene] returned gives the same scenes: the
    result is a fixed point of the two passes. *)
Theorem parseScene_resort_stable (script : string) :
  Forall numbered (parseScene script) ->
  retime zero (sort (parseScene script)) = parseScene script.
Proof.
  intros Hnum.
  assert (Hsorted : StronglySorted number_le (parseScene script)).
  { revert Hnum. unfold parseScene.
    destruct (fold_left parseLine (split LF script) ([], zero)) as [scenes t].
    intros Hnum.
    assert (Hnums : Forall numbered (sort scenes)).
    { clear -Hnum. revert Hnum. generalize (sort scenes), zero.
      intros l. induction l as [|s l IH]; intros t H; [constructor|].
      cbn [retime] in H. inversion H as [|? ? [z Hz] H']; subst.
      constructor; [exists z; exact Hz|]. eapply IH. exact H'. }
    apply (sort_numbers_only (sort scenes)); [now rewrite retime_numbers|].
    apply sort_sorted. now apply (proj1 (Forall_sort numbered scenes)). }
  rewrite (sort_ascending _ Hnum Hsorted).
  unfold parseScene.
  destruct (fold_left parseLine (split LF script) ([], zero)) as [scenes t].
  apply retime_retime.
Qed.

End DecomposerMore.

Lemma parseScene_resort_stable_witness :
  retime zero (sort (parseScene (A:=exactArith) shuffledDayScript))
  = parseScene (A:=exactArith) shuffledDayScript.
Proof.
  apply (parseScene_resort_stable (A:=exactArith) shuffledDayScript).
  assert (Hn : map scene_number (parseScene (A:=exactArith) shuffledDayScript)
               = [Int 1; Int 2; Int 3]) by (vm_compute; reflexivity).
  revert Hn. generalize (parseScene (A:=exactArith) shuffledDayScript).
  intros l Hn.
  destruct l as [|a [|b [|c [|d l]]]]; try discriminate.
  injection Hn as Ha Hb Hc.
  repeat constructor; eexists; eassumption.
Defined.

Lemma parseScene_start_is_prefix_sum_witness :
  exists s,
    parseScene (A:=exactArith) dayScript !! 2%nat = Some s
    /\ start_time s
       = fold_left add
           (take 2 (map duration (parseScene (A:=exactArith) dayScript))) zero
    /\ end_time s = add (start_time s) (duration s).
Proof.
  destruct (lookup_lt_is_Some_2 (parseScene (A:=exactArith) dayScript) 2%nat)
    as [s Hs]; [vm_compute; lia|].
  exists s. split; [exact Hs|].
  exact (parseScene_start_is_prefix_sum (A:=exactArith) dayScript 2 s Hs).
Defined.

(** ** More on the visual and clip stages *)

Section StagesMore.
Context {A : Arith} (w : World).

(** What a call of the retry loop with three turns can answer. *)
Lemma retryLoop_shape (attempt : nat -> image_outcome) (req : image_request)
    (path : string) :
  let result := retryLoop maxRetries 0 attempt req path in
  (fst result = None \/ fst result = Some path)
  /\ (1 <= length (snd result) <= 3)%nat.
Proof.
  unfold maxRetries. cbn [retryLoop].
  destruct (attempt 0%nat), (attempt 1%nat), (attempt 2%nat),
    (truthy (Some path)); cbn; split; auto; lia.
Qed.

(** X5.  The retries stop at the first attempt that saves the image: the
    call returns the path of the file after as many requests as attempts
    were made, all of them the same request. *)
Theorem generateImageWithRunway_first_success
    (attempt : nat -> image_outcome) (prompt : string)
    (filename refImage : option string) (k : nat) :
  let path :=
    path_join w (outputDir w)
      (if truthy filename then default EmptyString filename
       else "image_" +:+ dateNow w +:+ ".png") in
  (k < 3)%nat ->
  attempt k = ImageSaved ->
  (forall j, (j < k)%nat -> attempt j <> ImageSaved) ->
  truthy (Some path) = true ->
  generateImageWithRunway w attempt prompt filename refImage
  = (Some path, replicate (S k) (request prompt refImage)).
Proof.
  intros path Hk Hsaved Hbefore Hpath.
  unfold generateImageWithRunway, maxRetries. fold path.
  destruct k as [|[|[|k]]]; try lia; cbn [retryLoop replicate].
  - rewrite Hsaved, Hpath. reflexivity.
  - pose proof (Hbefore 0%nat ltac:(lia)) as H0.
    destruct (attempt 0%nat); [contradiction| |]; rewrite Hsaved, Hpath;
      reflexivity.
  - pose proof (Hbefore 0%nat ltac:(lia)) as H0.
    pose proof (Hbefore 1%nat ltac:(lia)) as H1.
    destruct (attempt 0%nat); [contradiction| |];
      (destruct (attempt 1%nat); [contradiction| |]); rewrite Hsaved, Hpath;
      reflexivity.
Qed.

Lemma length_visualsLoop (scenes : list scene) (i : nat) (ref : string) :
  length (visualsLoop w i ref scenes) = length scenes.
Proof.
  revert i ref. induction scenes as [|s scenes IH]; intros i ref;
    [reflexivity|].
  cbn [visualsLoop]. destruct (generateImageWithRunway w _ _ _ _).
  cbn [length]. now rewrite IH.
Qed.

Lemma truthy_imageFile (i : nat) : truthy (Some (imageFile i)) = true.
Proof. reflexivity. Qed.

(** X6.  The visual stage answers one slot for each scene, in order; the
    slot of scene [i] is [null] or the path of the file [image_NN.png]
    of that scene in the output directory, and between one and three
    requests were made for it. *)
Theorem generateVisualsForScenes_aligned (scenes : list scene) :
  length (generateVisualsForScenes w scenes) = length scenes
  /\ forall i v,
       generateVisualsForScenes w scenes !! i = Some v ->
       (imagePath v = None
        \/ imagePath v = Some (path_join w (outputDir w) (imageFile i)))
       /\ (1 <= length (requests v) <= 3)%nat.
Proof.
  split; [apply length_visualsLoop|].
  intros i v Hv. unfold generateVisualsForScenes in Hv.
  destruct (lookup_lt_is_Some_2 scenes i) as [sc Hsc].
  { rewrite <- (length_visualsLoop scenes 0%nat "None").
    eapply lookup_lt_Some. exact Hv. }
  destruct (visualsLoop_step w scenes 0 "None" i sc Hsc)
    as (ref_i & _ & Hlook & _).
  cbv zeta in Hlook. rewrite Hlook in Hv. injection Hv as <-.
  cbn [imagePath requests]. unfold generateImageWithRunway.
  rewrite truthy_imageFile. cbn [default Nat.add].
  apply retryLoop_shape.
Qed.

Lemma request_no_reference (prompt : string) :
  referenceImages (request prompt (Some "None")) = None.
Proof. reflexivity. Qed.

Lemma request_data_uri (prompt path base64 : string) :
  readBase64 w path = Some base64 ->
  referenceImages (request prompt (Some (getImageAsDataUri w path)))
  = Some (getImageAsDataUri w path).
Proof.
  intros Hread. unfold getImageAsDataUri. rewrite Hread. reflexivity.
Qed.

(** X7.  The reference chain of the visual stage: the requests for the
    first scene carry no reference, and when the image of scene [i] was
    saved at a path from which it can be read back, every request for
    scene [i+1] carries that image as a data uri. *)
Theorem reference_chain (scenes : list scene) :
  (forall v r,
      generateVisualsForScenes w scenes !! 0%nat = Some v ->
      r ∈ requests v -> referenceImages r = None)
  /\ (forall i v v' p base64 r',
        generateVisualsForScenes w scenes !! i = Some v ->
        generateVisualsForScenes w scenes !! S i = Some v' ->
        imagePath v = Some p -> p <> EmptyString ->
        readBase64 w p = Some base64 ->
        r' ∈ requests v' ->
        referenceImages r' = Some (getImageAsDataUri w p)).
Proof.
  unfold generateVisualsForScenes. split.
  - intros v r Hv Hr.
    destruct (lookup_lt_is_Some_2 scenes 0%nat) as [sc Hsc].
    { rewrite <- (length_visualsLoop scenes 0%nat "None").
      eapply lookup_lt_Some. exact Hv. }
    destruct (visualsLoop_step w scenes 0 "None" 0 sc Hsc)
      as (ref0 & Href & Hlook & _).
    cbv zeta in Hlook. rewrite (Href eq_refl) in Hlook.
    rewrite Hlook in Hv. injection Hv as <-. cbn [requests] in Hr.
    unfold generateImageWithRunway in Hr.
    pose proof (retryLoop_requests maxRetries 0 (imageAttempt w (0 + 0))
                  (request (text sc) (Some "None"))
                  (path_join w (outputDir w)
                     (if truthy (Some (imageFile (0 + 0)))
                      then default EmptyString (Some (imageFile (0 + 0)))
                      else "image_" +:+ dateNow w +:+ ".png"))) as Hall.
    rewrite Forall_forall in Hall. rewrite (Hall r Hr).
    apply request_no_reference.
  - intros i v v' p base64 r' Hv Hv' Hp Hne Hread Hr'.
    destruct (lookup_lt_is_Some_2 scenes i) as [sc Hsc].
    { rewrite <- (length_visualsLoop scenes 0%nat "None").
      eapply lookup_lt_Some. exact Hv. }
    destruct (lookup_lt_is_Some_2 scenes (S i)) as [sc' Hsc'].
    { rewrite <- (length_visualsLoop scenes 0%nat "None").
      eapply lookup_lt_Some. exact Hv'. }
    destruct (visualsLoop_step w scenes 0 "None" i sc Hsc)
      as (ref_i & _ & Hlook & Hnext).
    cbv zeta in Hlook, Hnext. specialize (Hnext sc' Hsc').
    rewrite Hlook in Hv. injection Hv as <-.
    rewrite Hnext in Hv'. injection Hv' as <-.
    cbn [imagePath requests] in *. rewrite Hp in Hr'.
    assert (Htruthy : truthy (Some p) = true).
    { cbn [truthy]. destruct (String.eqb p "") eqn:He; [|reflexivity].
      apply String.eqb_eq in He. contradiction. }
    rewrite Htruthy in Hr'. cbn [default] in Hr'.
    unfold generateImageWithRunway in Hr'.
    pose proof (retryLoop_requests maxRetries 0 (imageAttempt w (0 + S i))
                  (request (text sc') (Some (getImageAsDataUri w p)))
                  (path_join w (outputDir w)
                     (if truthy (Some (imageFile (0 + S i)))
                      then default EmptyString (Some (imageFile (0 + S i)))
                      else "image_" +:+ dateNow w +:+ ".png"))) as Hall.
    rewrite Forall_forall in Hall. rewrite (Hall r' Hr').
    eapply request_data_uri. exact Hread.
Qed.

Lemma clipRetryLoop_shape (attempt : nat -> bool) (image : option string)
    (script path : string) :
  let result := clipRetryLoop w maxRetries 0 attempt image script path in
  (fst result = [None] \/ fst result = [Some path])
  /\ (1 <= length (snd result) <= 3)%nat
  /\ Forall (fun r => r = clipRequest w image script) (snd result).
Proof.
  unfold maxRetries. cbn [clipRetryLoop].
  destruct (clipRequest w image script);
    [destruct (attempt 0%nat && truthy (Some path));
     [|destruct (attempt 1%nat && truthy (Some path));
       [|destruct (attempt 2%nat && truthy (Some path))]]|];
    cbn; (split; [auto|]); (split; [lia|]); repeat constructor.
Qed.

Lemma length_clipsLoop (videoScripts : list string)
    (imagePaths : list (option string)) (i : nat) :
  length (fst (clipsLoop w i videoScripts imagePaths)) = length videoScripts
  /\ length (snd (clipsLoop w i videoScripts imagePaths)) = length videoScripts.
Proof.
  revert i. induction videoScripts as [|s rest IH]; intros i;
    [split; reflexivity|].
  cbn [clipsLoop].
  destruct (clipRetryLoop_one w (videoAttempt w i) (mjoin (imagePaths !! i)) s
              (path_join w (outputDir w) (videoFile i))) as [slot Hslot].
  destruct (clipRetryLoop w maxRetries 0 (videoAttempt w i)
              (mjoin (imagePaths !! i)) s
              (path_join w (outputDir w) (videoFile i))) as [pushed reqs].
  cbn [fst] in Hslot. subst pushed. destruct (IH (S i)) as [IH1 IH2].
  destruct (clipsLoop w (S i) rest imagePaths) as [paths log].
  cbn [fst snd app length] in *. split; congruence.
Qed.

(** X8.  The clip stage returns, without throwing, one slot for each
    motion prompt, in order; the slot of scene [i] is [null] or the path
    of the file [video_NN.mp4] of that scene in the output directory,
    and between one and three attempts were made for it. *)
Theorem generateVideoWithRunway_aligned (videoScripts : list string)
    (imagePaths : list (option string)) :
  exists videoPaths log,
    generateVideoWithRunway w videoScripts imagePaths
    = (Returns videoPaths, log)
    /\ length videoPaths = length videoScripts
    /\ length log = length videoScripts
    /\ forall i slot attempts,
         videoPaths !! i = Some slot -> log !! i = Some attempts ->
         (slot = None
          \/ slot = Some (path_join w (outputDir w) (videoFile i)))
         /\ (1 <= length attempts <= 3)%nat.
Proof.
  unfold generateVideoWithRunway.
  destruct (length_clipsLoop videoScripts imagePaths 0) as [Hl1 Hl2].
  pose proof (clipsLoop_lookup w videoScripts imagePaths 0) as Hlook.
  destruct (clipsLoop w 0 videoScripts imagePaths) as [paths log].
  cbn [fst snd] in *. exists paths, log. split; [reflexivity|].
  split; [exact Hl1|]. split; [exact Hl2|].
  intros i slot attempts Hslot Hattempts.
  destruct (lookup_lt_is_Some_2 videoScripts i) as [script Hscript].
  { rewrite <- Hl1. eapply lookup_lt_Some. exact Hslot. }
  destruct (Hlook i script Hscript) as (slot' & Hpushed & Hpath & Hlog).
  cbv zeta in Hpushed, Hpath, Hlog. rewrite Hslot in Hpath.
  injection Hpath as <-. rewrite Hattempts in Hlog. injection Hlog as ->.
  destruct (clipRetryLoop_shape (videoAttempt w (0 + i))
              (mjoin (imagePaths !! (0 + i)%nat)) script
              (path_join w (outputDir w) (videoFile (0 + i))))
    as ([Hn|Hs] & Hlen & _); cbv zeta in *; rewrite Hpushed in *.
  - injection Hn as ->. split; [left; reflexivity|exact Hlen].
  - injection Hs as ->. split; [right; reflexivity|exact Hlen].
Qed.

(** A scene whose image can be read and one of whose attempts succeeds
    gets its clip. *)
Lemma clipRetryLoop_saved (attempt : nat -> bool) (p base64 script path : string)
    (k : nat) :
  readBase64 w p = Some base64 ->
  (k < 3)%nat -> attempt k = true ->
  truthy (Some path) = true ->
  fst (clipRetryLoop w maxRetries 0 attempt (Some p) script path)
  = [Some path].
Proof.
  intros Hread Hk Hok Hpath. unfold maxRetries. cbn [clipRetryLoop].
  unfold clipRequest. rewrite Hread, Hpath, !andb_true_r.
  destruct (attempt 0%nat) eqn:H0; [reflexivity|].
  destruct (attempt 1%nat) eqn:H1; [reflexivity|].
  destruct (attempt 2%nat) eqn:H2; [reflexivity|].
  destruct k as [|[|[|k]]]; try lia; congruence.
Qed.

(** X9.  A scene whose image slot is [null] (or missing) gets no clip:
    its three attempts all fail before any request is sent and its slot
    is [null].  The other scenes are still processed: a scene whose
    image can be read and one of whose three attempts succeeds has the
    path of its clip in its slot. *)
Theorem missing_image_yields_no_clip (videoScripts : list string)
    (imagePaths : list (option string)) (i : nat) (script : string) :
  videoScripts !! i = Some script ->
  mjoin (imagePaths !! i) = None ->
  exists videoPaths log,
    generateVideoWithRunway w videoScripts imagePaths
    = (Returns videoPaths, log)
    /\ videoPaths !! i = Some None
    /\ log !! i = Some [None; None; None]
    /\ forall j script' p k,
         videoScripts !! j = Some script' ->
         imagePaths !! j = Some (Some p) ->
         is_Some (readBase64 w p) ->
         (k < 3)%nat -> videoAttempt w j k = true ->
         truthy (Some (path_join w (outputDir w) (videoFile j))) = true ->
         videoPaths !! j
         = Some (Some (path_join w (outputDir w) (videoFile j))).
Proof.
  intros Hscript Himage. unfold generateVideoWithRunway.
  destruct (clipsLoop_lookup w videoScripts imagePaths 0 i script Hscript)
    as (slot & Hpushed & Hpath & Hlog).
  cbv zeta in Hpushed, Hpath, Hlog. cbn [Nat.add] in *.
  rewrite Himage in Hpushed, Hlog.
  unfold maxRetries in Hpushed, Hlog. cbn in Hpushed, Hlog.
  injection Hpushed as <-.
  assert (Hothers : forall j script' p k,
    videoScripts !! j = Some script' ->
    imagePaths !! j = Some (Some p) ->
    is_Some (readBase64 w p) ->
    (k < 3)%nat -> videoAttempt w j k = true ->
    truthy (Some (path_join w (outputDir w) (videoFile j))) = true ->
    fst (clipsLoop w 0 videoScripts imagePaths) !! j
    = Some (Some (path_join w (outputDir w) (videoFile j)))).
  { intros j script' p k Hj Hp [base64 Hread] Hk Hok Htruthy.
    destruct (clipsLoop_lookup w videoScripts imagePaths 0 j script' Hj)
      as (slot & Hslot & Hlook & _).
    cbv zeta in Hslot, Hlook. cbn [Nat.add] in Hslot, Hlook.
    rewrite Hp in Hslot. cbn [mjoin option_join] in Hslot.
    rewrite (clipRetryLoop_saved _ p base64 script' _ k Hread Hk Hok Htruthy)
      in Hslot.
    injection Hslot as <-. exact Hlook. }
  destruct (clipsLoop w 0 videoScripts imagePaths) as [paths log].
  exists paths, log. split; [reflexivity|]. split; [assumption|].
  split; [assumption|exact Hothers].
Qed.

End StagesMore.

Lemma generateImageWithRunway_first_success_witness :
  generateImageWithRunway eclipse
    (fun k => if Nat.eqb k 1 then ImageSaved else TaskFailedError)
    "Dawn" (Some "image_01.png") None
  = (Some "output/image_01.png", replicate 2 (request "Dawn" None)).
Proof.
  apply (generateImageWithRunway_first_success eclipse
           (fun k => if Nat.eqb k 1 then ImageSaved else TaskFailedError)
           "Dawn" (Some "image_01.png") None 1%nat).
  - lia.
  - reflexivity.
  - intros j Hj. assert (j = 0%nat) as -> by lia. discriminate.
  - reflexivity.
Defined.

Lemma reference_chain_witness :
  exists v v' r',
    generateVisualsForScenes eclipse dayScenes !! 0%nat = Some v
    /\ generateVisualsForScenes eclipse dayScenes !! 1%nat = Some v'
    /\ imagePath v = Some "output/image_01.png"
    /\ r' ∈ requests v'
    /\ referenceImages r' = Some (getImageAsDataUri eclipse "output/image_01.png").
Proof.
  destruct (reference_chain (A:=exactArith) eclipse dayScenes) as [_ Hchain].
  assert (H0 : exists v, generateVisualsForScenes eclipse dayScenes !! 0%nat = Some v
                         /\ imagePath v = Some "output/image_01.png").
  { vm_compute. eexists. split; reflexivity. }
  assert (H1 : exists v' r', generateVisualsForScenes eclipse dayScenes !! 1%nat = Some v'
                         /\ r' ∈ requests v').
  { vm_compute. eexists _, _. split; [reflexivity|]. apply list_elem_of_here. }
  destruct H0 as (v & Hv & Hp). destruct H1 as (v' & r' & Hv' & Hr').
  exists v, v', r'. split; [exact Hv|]. split; [exact Hv'|].
  split; [exact Hp|]. split; [exact Hr'|].
  apply (Hchain 0%nat v v' "output/image_01.png" "iVBORw0KGgo=" r' Hv Hv' Hp);
    [discriminate|reflexivity|exact Hr'].
Defined.

Lemma missing_image_yields_no_clip_witness :
  exists videoPaths log,
    generateVideoWithRunway eclipse ["dawn"; "noon"; "dusk"]
      [Some "output/image_01.png"; None; Some "output/image_03.png"]
    = (Returns videoPaths, log)
    /\ videoPaths !! 1%nat = Some None
    /\ log !! 1%nat = Some [None; None; None]
    /\ videoPaths !! 2%nat = Some (Some "output/video_03.mp4").
Proof.
  destruct (missing_image_yields_no_clip eclipse ["dawn"; "noon"; "dusk"]
              [Some "output/image_01.png"; None; Some "output/image_03.png"]
              1%nat "noon" eq_refl eq_refl)
    as (videoPaths & log & Hrun & Hnull & Hlog & Hothers).
  exists videoPaths, log. split; [exact Hrun|]. split; [exact Hnull|].
  split; [exact Hlog|].
  apply (Hothers 2%nat "dusk" "output/image_03.png" 0%nat);
    [reflexivity|reflexivity|eexists; reflexivity|lia|reflexivity|reflexivity].
Defined.

Lemma generateVisualsForScenes_aligned_witness :
  exists v,
    generateVisualsForScenes eclipse dayScenes !! 1%nat = Some v
    /\ (imagePath v = None
        \/ imagePath v
           = Some (path_join eclipse (outputDir eclipse) (imageFile 1)))
    /\ (1 <= length (requests v) <= 3)%nat.
Proof.
  destruct (generateVisualsForScenes_aligned (A:=exactArith) eclipse dayScenes)
    as [Hlen Hslots].
  destruct (lookup_lt_is_Some_2 (generateVisualsForScenes eclipse dayScenes)
              1%nat) as [v Hv].
  { rewrite Hlen. vm_compute. lia. }
  exists v. split; [exact Hv|]. exact (Hslots 1%nat v Hv).
Defined.

Lemma generateVideoWithRunway_aligned_witness :
  exists videoPaths log slot attempts,
    generateVideoWithRunway eclipse ["dawn"; "noon"; "dusk"]
      [Some "output/image_01.png"; None; Some "output/image_03.png"]
    = (Returns videoPaths, log)
    /\ videoPaths !! 2%nat = Some slot
    /\ log !! 2%nat = Some attempts
    /\ (slot = None
        \/ slot = Some (path_join eclipse (outputDir eclipse) (videoFile 2)))
    /\ (1 <= length attempts <= 3)%nat.
Proof.
  destruct (generateVideoWithRunway_aligned eclipse ["dawn"; "noon"; "dusk"]
              [Some "output/image_01.png"; None; Some "output/image_03.png"])
    as (videoPaths & log & Hrun & Hpaths & Hlog & Hslots).
  destruct (lookup_lt_is_Some_2 videoPaths 2%nat) as [slot Hslot].
  { rewrite Hpaths. cbn. lia. }
  destruct (lookup_lt_is_Some_2 log 2%nat) as [attempts Hattempts].
  { rewrite Hlog. cbn. lia. }
  exists videoPaths, log, slot, attempts.
  split; [exact Hrun|]. split; [exact Hslot|]. split; [exact Hattempts|].
  exact (Hslots 2%nat slot attempts Hslot Hattempts).
Defined.

(** ** More on the assembly stage *)

Lemma split_none (sep s : string) :
  includes sep s = false -> split sep s = [s].
Proof.
  unfold split. induction s as [|c s IH]; intros H; [reflexivity|].
  cbn [includes] in H. apply orb_false_iff in H as [Hp Hi].
  cbn [split_go]. rewrite Hp, (IH Hi). reflexivity.
Qed.

Section AssemblyMore.
Context (w : World).

(** X10.  The clips that assembly keeps are the paths that are not
    [null], not empty and exist, in the order of the scenes. *)
Theorem validPaths_filter (videoPaths : list (option string)) :
  validPaths w videoPaths
  = List.filter (fun p => negb (String.eqb p "") && pathExists w p)
      (omap id videoPaths)
  /\ (forall p, p ∈ validPaths w videoPaths
                <-> Some p ∈ videoPaths /\ p <> EmptyString
                    /\ pathExists w p = true)
  /\ sublist (validPaths w videoPaths) (omap id videoPaths).
Proof.
  split; [|split].
  - unfold validPaths. induction videoPaths as [|v l IH]; [reflexivity|].
    cbn [omap list_omap]. destruct v as [q|]; cbn [id]; [|exact IH].
    cbn [List.filter truthy].
    destruct (negb (String.eqb q "") && pathExists w q); now rewrite IH.
  - intros p. unfold validPaths. rewrite list_elem_of_omap. split.
    + intros (v & Hv & Hkeep). destruct v as [q|]; [|discriminate].
      cbn [truthy] in Hkeep.
      destruct (String.eqb q "") eqn:He; [discriminate|].
      destruct (pathExists w q) eqn:Hex; [|discriminate].
      cbn in Hkeep. injection Hkeep as <-. split; [exact Hv|].
      split; [|exact Hex]. now apply String.eqb_neq.
    + intros (Hin & Hne & Hex). exists (Some p). split; [exact Hin|].
      cbn [truthy]. apply String.eqb_neq in Hne. rewrite Hne, Hex. reflexivity.
  - unfold validPaths. induction videoPaths as [|v l IH]; [constructor|].
    cbn [omap list_omap]. destruct v as [q|]; cbn [id]; [|exact IH].
    destruct (truthy (Some q) && pathExists w q);
      [now constructor|now apply sublist_cons].
Qed.

(** X11.  Without a clip to keep (no path at all, or only [null] and
    missing files) assembly returns [null] at once: no file is written
    and the media tool is not run. *)
Theorem concatenateVideos_nothing_valid (videoPaths : list (option string))
    (st : state) :
  validPaths w videoPaths = [] ->
  concatenateVideos w videoPaths st = (Returns None, st).
Proof.
  intros Hvalid. unfold concatenateVideos, tryCatch.
  destruct (Nat.eqb (length videoPaths) 0); [reflexivity|].
  rewrite Hvalid. reflexivity.
Qed.

(** X12.  When the media tool fails, assembly returns [null] and does
    not look for the manifest: the command is the last effect. *)
Theorem concatenateVideos_tool_failure (videoPaths : list (option string))
    (st st1 : state) (command : string) :
  validPaths w videoPaths <> [] ->
  createFFmpegConcatenationCommand w (validPaths w videoPaths)
    (combinedPath w) st = (Returns command, st1) ->
  exec w command = false ->
  concatenateVideos w videoPaths st
  = (Returns None, with_trace st1 (trace st1 ++ [Exec command])).
Proof.
  intros Hvalid Hcommand Hexec. unfold concatenateVideos, tryCatch.
  destruct videoPaths as [|p ps]; [contradiction|].
  cbn [length Nat.eqb].
  destruct (validPaths w (p :: ps)) as [|q qs] eqn:Hq; [contradiction|].
  cbn [length Nat.eqb]. unfold bind at 1. fold (combinedPath w).
  rewrite Hcommand. unfold bind at 1. unfold execAsync, bind at 1, emit.
  rewrite Hexec. reflexivity.
Qed.

Lemma mapM_absolutePath_ok (paths : list string) (st : state) :
  Forall (fun p => path_isAbsolute w p = true) paths ->
  mapM (absolutePath w) paths st = (Returns paths, st).
Proof.
  induction 1 as [|p l Hp Hl IH]; [reflexivity|].
  cbn [mapM]. unfold bind at 1, absolutePath at 1. rewrite Hp. unfold ret at 1.
  unfold bind at 1. rewrite IH. reflexivity.
Qed.

Lemma mapM_absolutePath_throws (paths : list string) (st : state) :
  Exists (fun p => path_isAbsolute w p = false
                   /\ includes backslash p = false) paths ->
  exists e, mapM (absolutePath w) paths st = (Throws e, st).
Proof.
  induction paths as [|p l IH]; intros H; [inversion H|].
  cbn [mapM]. unfold bind at 1, absolutePath at 1.
  destruct (path_isAbsolute w p) eqn:Habs.
  - unfold ret at 1. inversion H as [? ? [Hc _]|? ? Hl]; subst; [congruence|].
    destruct (IH Hl) as [e He]. unfold bind at 1. rewrite He.
    eexists. reflexivity.
  - destruct (includes backslash p) eqn:Hinc.
    + destruct (split backslash p !! 1%nat).
      * unfold ret at 1. inversion H as [? ? [_ Hc]|? ? Hl]; subst;
          [congruence|].
        destruct (IH Hl) as [e He]. unfold bind at 1. rewrite He.
        eexists. reflexivity.
      * eexists. reflexivity.
    + rewrite (split_none backslash p Hinc). eexists. reflexivity.
Qed.

(** X13.  With two clips or more to keep, one of which has a path that
    is not absolute and holds no backslash, the command cannot be built
    ([path.resolve] receives [undefined]): assembly returns [null], and
    neither writes the manifest nor runs the media tool. *)
Theorem concatenateVideos_relative_paths (videoPaths : list (option string))
    (st : state) :
  (2 <= length (validPaths w videoPaths))%nat ->
  Exists (fun p => path_isAbsolute w p = false
                   /\ includes backslash p = false)
    (validPaths w videoPaths) ->
  concatenateVideos w videoPaths st = (Returns None, st).
Proof.
  intros Hlen Hbad. unfold concatenateVideos, tryCatch.
  destruct videoPaths as [|v vs]; [cbn in Hlen; lia|].
  cbn [length Nat.eqb].
  destruct (validPaths w (v :: vs)) as [|p [|q qs]] eqn:Hq;
    try (cbn in Hlen; lia).
  cbn [length Nat.eqb]. unfold bind at 1, createFFmpegConcatenationCommand.
  destruct (mapM_absolutePath_throws (p :: q :: qs) st Hbad) as [e He].
  unfold bind at 1. rewrite He. reflexivity.
Qed.

(** X14.  With two clips or more to keep, all of absolute path, the
    manifest is written with one line for each clip kept, in the order
    of the scenes, then the media tool runs on it, then the manifest is
    removed if it is found; these are the only effects. *)
Theorem concatenateVideos_manifest (videoPaths : list (option string))
    (st : state) :
  let valid := validPaths w videoPaths in
  let content :=
    joinLines (map (fun p => "file '" +:+ forwardSlashes p +:+ "'") valid) in
  let command :=
    "ffmpeg -f concat -safe 0 -i " +:+ dquote +:+ manifestPath w +:+ dquote
    +:+ " -c copy " +:+ dquote +:+ combinedPath w +:+ dquote in
  (2 <= length valid)%nat ->
  Forall (fun p => path_isAbsolute w p = true) valid ->
  writeFile w (manifestPath w) content = true ->
  exec w command = true ->
  concatenateVideos w videoPaths st
  = (Returns (if pathExists w (manifestPath w) && negb (remove w (manifestPath w))
              then None else Some (combinedPath w)),
     with_trace st
       (trace st
        ++ [WriteFile (manifestPath w) content; Exec command]
        ++ (if pathExists w (manifestPath w) then [Remove (manifestPath w)]
            else []))).
Proof.
  intros valid content command Hlen Habs Hwrite Hexec.
  unfold concatenateVideos, tryCatch.
  destruct videoPaths as [|v vs]; [cbn in Hlen; lia|].
  cbn [length Nat.eqb]. fold valid.
  destruct valid as [|p [|q qs]] eqn:Hq; try (cbn in Hlen; lia).
  cbn [length Nat.eqb]. unfold bind at 1, createFFmpegConcatenationCommand.
  fold (combinedPath w). fold (manifestPath w).
  unfold bind at 1. rewrite (mapM_absolutePath_ok (p :: q :: qs) st Habs).
  fold content. unfold bind at 1, fsWriteFile, bind at 1, emit.
  rewrite Hwrite. unfold ret at 1. unfold ret at 1. fold command.
  unfold bind at 1, execAsync, bind at 1, emit. rewrite Hexec.
  unfold ret at 1. unfold bind at 1.
  cbn [with_trace tasks ticks writes sent trace].
  destruct (pathExists w (manifestPath w)); cbn [andb].
  - unfold fsRemove, bind at 1, emit.
    cbn [with_trace tasks ticks writes sent trace].
    destruct (remove w (manifestPath w)); cbn [negb];
      unfold ret, with_trace; cbn [tasks ticks writes sent trace];
      rewrite <- !app_assoc; reflexivity.
  - unfold ret, with_trace. cbn [tasks ticks writes sent trace].
    rewrite app_nil_r, <- !app_assoc. reflexivity.
Qed.

End AssemblyMore.

Lemma concatenateVideos_nothing_valid_witness :
  concatenateVideos (sunny sunriseScript) [None; Some ""; None] start
  = (Returns None, start).
Proof.
  apply (concatenateVideos_nothing_valid (sunny sunriseScript)). reflexivity.
Defined.

Lemma concatenateVideos_tool_failure_witness :
  concatenateVideos brokenTool [Some "output/video_01.mp4"] start
  = (Returns None,
     with_trace start
       [Exec ("ffmpeg -i " +:+ dquote +:+ "output/video_01.mp4" +:+ dquote
              +:+ " -c copy " +:+ dquote
              +:+ "output/combined_video_2025-07-20T10-00-00.mp4" +:+ dquote)]).
Proof.
  exact (concatenateVideos_tool_failure brokenTool
           [Some "output/video_01.mp4"] start start _
           ltac:(discriminate) eq_refl eq_refl).
Defined.

Lemma concatenateVideos_relative_paths_witness :
  concatenateVideos (sunny sunriseScript)
    [Some "output/video_01.mp4"; None; Some "output/video_03.mp4"] start
  = (Returns None, start).
Proof.
  apply (concatenateVideos_relative_paths (sunny sunriseScript)).
  - vm_compute. lia.
  - apply Exists_cons_hd. split; reflexivity.
Defined.

Lemma concatenateVideos_manifest_witness :
  concatenateVideos (sunny sunriseScript)
    [Some "/srv/out/video_01.mp4"; None; Some "/srv/out/video_03.mp4"] start
  = (Returns (Some "output/combined_video_2025-07-20T10-00-00.mp4"),
     with_trace start
       [WriteFile "output/filelist.txt"
          ("file '/srv/out/video_01.mp4'" +:+ LF
           +:+ "file '/srv/out/video_03.mp4'");
        Exec ("ffmpeg -f concat -safe 0 -i " +:+ dquote
              +:+ "output/filelist.txt" +:+ dquote +:+ " -c copy " +:+ dquote
              +:+ "output/combined_video_2025-07-20T10-00-00.mp4"
              +:+ dquote)]).
Proof.
  apply (concatenateVideos_manifest (sunny sunriseScript)
           [Some "/srv/out/video_01.mp4"; None; Some "/srv/out/video_03.mp4"]
           start).
  - vm_compute. lia.
  - repeat constructor.
  - reflexivity.
  - reflexivity.
Defined.

(** ** More on the orchestrator *)

Section OrchestratorMore.
Context {A : Arith} (w : World).

(** An update of a task that is not in the registry throws at once, and
    so does the handler of [generateVideo]. *)
Lemma generateVideo_absent (prompt taskId : string) (st : state) :
  tasks st !! taskId = None ->
  generateVideo w prompt taskId st
  = (Throws ("Task " +:+ taskId +:+ " not found"), st).
Proof.
  intros Hnone. unfold generateVideo, tryCatch.
  unfold bind at 1, updateTask at 1, TaskManager.updateTask. rewrite Hnone.
  unfold bind at 1, updateTask at 1, TaskManager.updateTask. rewrite Hnone.
  reflexivity.
Qed.

(** X15.  For a task that is not in the registry, [generateVideo] throws
    the not-found error of the task manager and does nothing else: no
    request, no write, no broadcast. *)
Theorem generateVideo_unknown_task (prompt taskId : string) (st : state) :
  tasks st !! taskId = None ->
  fst (generateVideo w prompt taskId st)
  = Throws ("Task " +:+ taskId +:+ " not found")
  /\ snd (generateVideo w prompt taskId st) = st.
Proof.
  intros Hnone. now rewrite (generateVideo_absent prompt taskId st Hnone).
Qed.

Lemma applyUpdates_last (tick : nat) (t : task) (us : list task) (u : task) :
  exists t0 now,
    List.last (applyUpdates w tick t (us ++ [u])) t = assign t0 u now.
Proof.
  revert tick t. induction us as [|u0 us IH]; intros tick t.
  - cbn. eexists _, _. reflexivity.
  - cbn [app applyUpdates].
    destruct (IH (S tick) (assign t u0 (clock w tick))) as (t0 & now & Hl).
    exists t0, now. rewrite <- Hl.
    destruct (applyUpdates w (S tick) (assign t u0 (clock w tick)) (us ++ [u]))
      as [|g l] eqn:Hg; [destruct us; discriminate|].
    change (List.last (g :: l) t = List.last (g :: l) (assign t u0 (clock w tick))).
    clear. revert g. induction l as [|x l IHl]; intros g; [reflexivity|].
    change (List.last (x :: l) t = List.last (x :: l) (assign t u0 (clock w tick))).
    apply IHl.
Qed.

(** X16.  What [generateVideo] answers is what it leaves in the
    registry: when it returns a path the task is completed with progress
    100 and that path as its [data.videoPath]; when it throws, the task
    is failed and its [error] is the message thrown. *)
Theorem generateVideo_outcome_recorded (prompt taskId : string) (st : state)
    (t : task) :
  tasks st !! taskId = Some t ->
  exists t',
    tasks (snd (generateVideo w prompt taskId st)) !! taskId = Some t'
    /\ match fst (generateVideo w prompt taskId st) with
       | Returns path =>
           statusOf t' = Some "completed" /\ progressOf t' = Some 100
           /\ t' !! "data" = Some (VObject [("videoPath", path)])
       | Throws message =>
           statusOf t' = Some "failed" /\ errorOf t' = Some message
       end.
Proof.
  intros Ht.
  destruct (generateVideo_run w prompt taskId st (mk_is_Some _ _ Ht))
    as (r & us & st' & Hrun & [tr ->] & Hshape).
  rewrite Hrun. cbn [fst snd with_trace tasks].
  destruct (writes_runUpdates w taskId us st t Ht) as (_ & Hl & _).
  rewrite Hl. eexists. split; [reflexivity|].
  destruct Hshape as [(n & message & _ & -> & ->)|(path & -> & ->)].
  - destruct (applyUpdates_last (ticks st) t (take n milestones)
                (failedUpdate message)) as (t0 & now & ->).
    rewrite statusOf_assign, errorOf_assign. split; reflexivity.
  - destruct (applyUpdates_last (ticks st) t milestones (completedUpdate path))
      as (t0 & now & ->).
    rewrite statusOf_assign, progressOf_assign, assign_lookup.
    repeat split.
Qed.



(** X18.  Every value of the task that [generateVideo] writes to the
    registry is handed to the WebSocket manager right away: the
    messages broadcast are the values written, in the same order. *)
Theorem generateVideo_broadcasts_writes (prompt taskId : string)
    (st : state) :
  exists history,
    writes (snd (generateVideo w prompt taskId st))
    = writes st ++ map (pair taskId) history
    /\ sent (snd (generateVideo w prompt taskId st))
       = sent st ++ map (fun t => (taskId, Some t)) history.
Proof.
  destruct (tasks st !! taskId) as [t|] eqn:Ht.
  - destruct (generateVideo_run w prompt taskId st (mk_is_Some _ _ Ht))
      as (r & us & st' & Hrun & [tr ->] & _).
    rewrite Hrun. cbn [snd with_trace writes sent].
    destruct (writes_runUpdates w taskId us st t Ht) as (Hw & _ & Hs).
    eexists. split; [exact Hw|exact Hs].
  - rewrite (generateVideo_absent prompt taskId st Ht). exists [].
    cbn. now rewrite !app_nil_r.
Qed.

End OrchestratorMore.

Lemma generateVideo_unknown_task_witness :
  fst (generateVideo (A:=exactArith) (sunny sunriseScript) "A day at the sea"
         "3f2a" start)
  = Throws "Task 3f2a not found"
  /\ snd (generateVideo (A:=exactArith) (sunny sunriseScript)
            "A day at the sea" "3f2a" start) = start.
Proof.
  apply (generateVideo_unknown_task (A:=exactArith) (sunny sunriseScript)).
  reflexivity.
Defined.

Lemma generateVideo_outcome_recorded_witness :
  exists t',
    tasks (snd (generateVideo (A:=exactArith) silent "A day at the sea" "3f2a"
                  submitted)) !! "3f2a" = Some t'
    /\ match fst (generateVideo (A:=exactArith) silent "A day at the sea"
                    "3f2a" submitted) with
       | Returns path =>
           statusOf t' = Some "completed" /\ progressOf t' = Some 100
           /\ t' !! "data" = Some (VObject [("videoPath", path)])
       | Throws message =>
           statusOf t' = Some "failed" /\ errorOf t' = Some message
       end.
Proof.
  assert (Ht : exists t, tasks submitted !! "3f2a" = Some t).
  { eexists. unfold submitted, createTask, TaskManager.createTask.
    cbn [snd tasks]. apply lookup_insert_eq. }
  destruct Ht as [t Ht].
  exact (generateVideo_outcome_recorded (A:=exactArith) silent
           "A day at the sea" "3f2a" submitted t Ht).
Defined.


(** ** The rest of the task manager *)

Lemma cleanupOldTasks_lookup (stringBefore : string -> Z -> bool) (now : Z)
    (tasks : registry) (taskId : string) :
  cleanupOldTasks stringBefore now tasks !! taskId
  = match tasks !! taskId with
    | Some t =>
        if createdBefore stringBefore (now - retention) t then None
        else Some t
    | None => None
    end.
Proof.
  unfold cleanupOldTasks. rewrite map_lookup_filter.
  destruct (tasks !! taskId) as [t|]; [|reflexivity]. cbn.
  case_guard as Hb; cbn in Hb.
  - rewrite Hb. reflexivity.
  - destruct (createdBefore stringBefore (now - retention) t);
      [reflexivity|congruence].
Qed.

(** X19.  The sweep goes by the date of creation alone: a task created
    at the time [created] and updated since (with any fields but
    [createdAt], whatever its state) is still in the registry after a
    sweep at the time [now] exactly when it was created less than 24
    hours before, and it is then unchanged. *)
Theorem sweep_by_creation_date (stringBefore : string -> Z -> bool)
    (tasks : registry) (taskId type : string) (data : value)
    (created updated now : Z) (updates : task) :
  updates !! "createdAt" = None ->
  let registered := snd (TaskManager.createTask taskId created type data tasks) in
  let current := TaskManager.updateTask updated taskId updates registered in
  exists t,
    fst current = Returns t
    /\ cleanupOldTasks stringBefore now (snd current) !! taskId
       = if created <? now - 24 * 60 * 60 * 1000 then None else Some t.
Proof.
  intros Hupd registered current. subst current registered.
  unfold TaskManager.createTask, TaskManager.updateTask. cbn [snd].
  rewrite lookup_insert_eq. cbn [fst snd]. eexists. split; [reflexivity|].
  rewrite cleanupOldTasks_lookup, lookup_insert_eq.
  unfold createdBefore. rewrite assign_lookup.
  destruct (decide ("createdAt" = "updatedAt")); [discriminate|].
  rewrite Hupd. reflexivity.
Qed.


(** ** The downloads *)

Section DownloadFacts.
Context (w : World).

(** X21.  [_downloadAndSaveImage] asks for the file three times when no
    request brings a response of status 200, waits one second and then
    two seconds between the requests and not after the last, and then
    answers [null]: it does not throw. *)
Theorem download_exhausted (attempt : nat -> download_attempt)
    (imageUrl : string) (filename : option string) :
  (forall k, (k < 3)%nat ->
     match attempt k with
     | RequestFailed => True
     | Responded status _ => status <> 200
     end) ->
  _downloadAndSaveImage w true attempt imageUrl filename
  = (Returns None,
     [EnsureDir (outputDir w); Get imageUrl; Wait 1000; Get imageUrl;
      Wait 2000; Get imageUrl]).
Proof.
  intros Hfail. unfold _downloadAndSaveImage. cbn [downloadLoop].
  pose proof (Hfail 0%nat ltac:(lia)) as H0.
  pose proof (Hfail 1%nat ltac:(lia)) as H1.
  pose proof (Hfail 2%nat ltac:(lia)) as H2.
  destruct (attempt 0%nat) as [|s0 e0], (attempt 1%nat) as [|s1 e1],
    (attempt 2%nat) as [|s2 e2];
    repeat match goal with
      | H : ?s <> 200 |- _ => apply Z.eqb_neq in H; rewrite H
      end; reflexivity.
Qed.

(** X22.  A response of status 200 ends the retries even when the write
    of the file fails: the error of the write is then thrown by
    [_downloadAndSaveImage], which neither asks again nor answers
    [null]. *)
Theorem download_write_error_escapes (attempt : nat -> download_attempt)
    (imageUrl : string) (filename : option string) (k : nat)
    (message : string) :
  (k < 3)%nat ->
  attempt k = Responded 200 (Some message) ->
  (forall j, (j < k)%nat -> attempt j = RequestFailed) ->
  exists log,
    _downloadAndSaveImage w true attempt imageUrl filename
    = (Throws message, log)
    /\ length (List.filter (fun e => match e with Get _ => true | _ => false end)
                 log) = S k.
Proof.
  intros Hk Hresp Hbefore. unfold _downloadAndSaveImage.
  destruct k as [|[|[|k]]]; try lia; cbn [downloadLoop].
  - rewrite Hresp. cbn. eexists. split; reflexivity.
  - rewrite (Hbefore 0%nat) by lia. rewrite Hresp. cbn.
    eexists. split; reflexivity.
  - rewrite (Hbefore 0%nat), (Hbefore 1%nat) by lia. rewrite Hresp. cbn.
    eexists. split; reflexivity.
Qed.

(** X23.  [downloadAndSaveImage] asks three times when every request
    fails, waits two and then four seconds between the requests, and
    then throws the error 'Failed to download image'. *)
Theorem download_by_task_exhausted (attempt : nat -> download_attempt)
    (imageUrl taskId : string) :
  (forall k, (1 <= k <= 3)%nat -> attempt k = RequestFailed) ->
  downloadAndSaveImage w attempt imageUrl taskId
  = (Throws "Failed to download image",
     [Get imageUrl; Wait 2000; Get imageUrl; Wait 4000; Get imageUrl]).
Proof.
  intros Hfail. unfold downloadAndSaveImage. cbn [downloadLoopByTask].
  rewrite (Hfail 1%nat), (Hfail 2%nat), (Hfail 3%nat) by lia. reflexivity.
Qed.

End DownloadFacts.

Lemma download_exhausted_witness :
  _downloadAndSaveImage (sunny sunriseScript) true
    (fun k => if Nat.eqb k 1 then Responded 503 None else RequestFailed)
    "https://cdn.example/a.png" (Some "image_01.png")
  = (Returns None,
     [EnsureDir "output"; Get "https://cdn.example/a.png"; Wait 1000;
      Get "https://cdn.example/a.png"; Wait 2000;
      Get "https://cdn.example/a.png"]).
Proof.
  apply (download_exhausted (sunny sunriseScript)).
  intros k Hk. destruct k as [|[|k]]; cbn; [exact I|discriminate|exact I].
Defined.

Lemma download_write_error_escapes_witness :
  exists log,
    _downloadAndSaveImage (sunny sunriseScript) true
      (fun k => if Nat.eqb k 1 then Responded 200 (Some "ENOSPC")
                else RequestFailed)
      "https://cdn.example/a.png" (Some "image_01.png")
    = (Throws "ENOSPC", log)
    /\ length (List.filter (fun e => match e with Get _ => true | _ => false end)
                 log) = 2%nat.
Proof.
  apply (download_write_error_escapes (sunny sunriseScript) _ _ _ 1%nat).
  - lia.
  - reflexivity.
  - intros j Hj. assert (j = 0%nat) as -> by lia. reflexivity.
Defined.

Lemma download_by_task_exhausted_witness :
  downloadAndSaveImage (sunny sunriseScript) (fun _ => RequestFailed)
    "https://cdn.example/a.png" "3f2a"
  = (Throws "Failed to download image",
     [Get "https://cdn.example/a.png"; Wait 2000;
      Get "https://cdn.example/a.png"; Wait 4000;
      Get "https://cdn.example/a.png"]).
Proof.
  apply (download_by_task_exhausted (sunny sunriseScript)). reflexivity.
Defined.

Lemma sweep_by_creation_date_witness :
  exists t,
    fst (TaskManager.updateTask 90000000 "3f2a" runningUpdate
           (snd (TaskManager.createTask "3f2a" 1000 "video" VNull ∅))) = Returns t
    /\ cleanupOldTasks (fun _ _ => false) 90000000
         (snd (TaskManager.updateTask 90000000 "3f2a" runningUpdate
                 (snd (TaskManager.createTask "3f2a" 1000 "video" VNull ∅)))) !! "3f2a"
       = if 1000 <? 90000000 - 24 * 60 * 60 * 1000 then None else Some t.
Proof.
  apply (sweep_by_creation_date (fun _ _ => false) ∅ "3f2a" "video" VNull
           1000 90000000 90000000 runningUpdate).
  reflexivity.
Defined.


(** ** The image task *)

Section ImageTaskFacts.
Context (w : World).

(** X24.  What [generateImage] answers is what it leaves in the
    registry.  When the image is saved it returns the path and the task
    is completed with progress 100 and the path as its
    [data.imagePath]; when the attempts are used up it throws 'Image
    generation failed' and the task is failed with that error, its
    progress left at the 20 of the update that marked it running. *)
Theorem generateImage_outcome_recorded (attempt : nat -> image_outcome)
    (prompt taskId : string) (filename refImage : option string)
    (st : state) (t : task) :
  tasks st !! taskId = Some t ->
  let answer :=
    fst (generateImageWithRunway w attempt prompt filename refImage) in
  exists st' t',
    generateImage w attempt prompt taskId filename refImage st
    = (if truthy answer then Returns (default EmptyString answer)
       else Throws "Image generation failed", st')
    /\ tasks st' !! taskId = Some t'
    /\ progressOf t'
       = Some (if truthy answer then 100 else 20)
    /\ (if truthy answer
        then statusOf t' = Some "completed"
             /\ t' !! "data"
                = Some (VObject [("imagePath", default EmptyString answer)])
        else statusOf t' = Some "failed"
             /\ errorOf t' = Some "Image generation failed").
Proof.
  intros Ht answer. subst answer.
  unfold generateImage, tryCatch.
  rewrite (update_step w taskId _ _ st (mk_is_Some _ _ Ht)).
  destruct (generateImageWithRunway w attempt prompt filename refImage)
    as [imagePath reqs]. cbn [fst].
  unfold bind at 1, emit.
  set (st1 := with_trace (runUpdates w taskId [imageRunningUpdate] st) _).
  assert (Hst1 : st1 = with_trace (runUpdates w taskId [imageRunningUpdate] st)
                         (trace st1)) by reflexivity.
  destruct (truthy imagePath) eqn:Hpath.
  - assert (Hp1 : is_Some (tasks st1 !! taskId)).
    { rewrite Hst1. cbn [with_trace tasks].
      apply present_runUpdates. eexists. exact Ht. }
    rewrite (update_step w taskId _ _ st1 Hp1). unfold ret.
    rewrite Hst1, <- (runUpdates_with_trace w taskId _ _ (trace st1)).
    rewrite <- runUpdates_app. rewrite runUpdates_with_trace.
    destruct (writes_runUpdates w taskId
                ([imageRunningUpdate]
                 ++ [imageCompletedUpdate (default EmptyString imagePath)])
                st t Ht) as (_ & Hl & _).
    eexists _, _. split; [reflexivity|]. cbn [with_trace tasks].
    split; [exact Hl|]. cbn [app applyUpdates List.last].
    rewrite progressOf_assign, statusOf_assign, assign_lookup.
    repeat split.
  - unfold throw.
    assert (Hp1 : is_Some (tasks st1 !! taskId)).
    { rewrite Hst1. cbn [with_trace tasks].
      apply present_runUpdates. eexists. exact Ht. }
    rewrite (update_step w taskId _ _ st1 Hp1).
    rewrite Hst1, <- (runUpdates_with_trace w taskId _ _ (trace st1)).
    rewrite <- runUpdates_app. rewrite runUpdates_with_trace.
    destruct (writes_runUpdates w taskId
                ([imageRunningUpdate]
                 ++ [failedUpdate "Image generation failed"])
                st t Ht) as (_ & Hl & _).
    eexists _, _. split; [reflexivity|]. cbn [with_trace tasks].
    split; [exact Hl|]. cbn [app applyUpdates List.last].
    rewrite progressOf_assign, statusOf_assign, errorOf_assign.
    change (failedUpdate "Image generation failed" !! "progress") with (@None value).
    rewrite progressOf_assign.
    repeat split.
Qed.

End ImageTaskFacts.

(** ** The WebSocket manager *)

Section SocketFacts.
Import WebSocketManager.

Lemma broadcastTaskUpdate_lookup (now taskId : string)
    (taskData : option task) (clients : list client) (i : nat) :
  WebSocketManager.broadcastTaskUpdate now taskId taskData clients !! i
  = (fun c => if isOpen c && wants taskId c
              then send (TaskUpdate taskId taskData now) c else c)
      <$> clients !! i.
Proof. unfold WebSocketManager.broadcastTaskUpdate. apply list_lookup_fmap. Qed.

(** When the test of [broadcastTaskUpdate] lets a subscription to [a]
    receive the update of the task [b]. *)
Lemma wants_cases (a : option json) (b : string) :
  isString b a || falsy a = true
  <-> a = Some (JString b) \/ a = None \/ a = Some JNull
      \/ a = Some (JBool false) \/ (exists shown, a = Some (JNumber true shown))
      \/ a = Some (JString "").
Proof.
  destruct a as [[| [|] | [|] shown | s | shown]|]; cbn [isString falsy negb orb];
    try (split; [discriminate|];
         intros [H|[H|[H|[H|[[x H]|H]]]]]; discriminate);
    try (split; [intros _|reflexivity]; eauto 10).
  rewrite orb_true_iff, !String.eqb_eq. split.
  - intros [->| ->]; auto 10.
  - intros [H|[H|[H|[H|[[x H]|H]]]]]; try discriminate;
      injection H as ->; auto.
Qed.

(** X25.  An open client that subscribed with the task id [a] receives,
    after the acknowledgement, the update of a task [b] exactly when [a]
    is the string [b] or is falsy: missing, [null], [false], the number
    zero or the empty string.  Once it has unsubscribed it receives the
    update of every task.  A client that is not open receives nothing
    from a broadcast. *)
Theorem subscription_filters (now later : string) (clients : list client)
    (i : nat) (c : client) (a : option json) (b : string)
    (taskData : option task) :
  clients !! i = Some c ->
  let subscribe := {| type := Some (JString "subscribe"); taskId := a |} in
  let unsubscribe :=
    {| type := Some (JString "unsubscribe"); taskId := None |} in
  let subscribed := handleClientMessage now c subscribe in
  let unsubscribed := handleClientMessage now subscribed unsubscribe in
  (isOpen c = true ->
   (exists updates,
      outbox <$>
        (WebSocketManager.broadcastTaskUpdate later b taskData
           (<[i := subscribed]> clients) !! i)
      = Some (outbox c
              ++ Subscribed a ("Subscribed to task " +:+ display a)
                 :: updates)
      /\ (updates = [TaskUpdate b taskData later] \/ updates = [])
      /\ (updates = [TaskUpdate b taskData later]
          <-> a = Some (JString b) \/ a = None \/ a = Some JNull
              \/ a = Some (JBool false)
              \/ (exists shown, a = Some (JNumber true shown))
              \/ a = Some (JString "")))
   /\ outbox <$>
        (WebSocketManager.broadcastTaskUpdate later b taskData
           (<[i := unsubscribed]> clients) !! i)
      = Some (outbox c
              ++ [Subscribed a ("Subscribed to task " +:+ display a);
                  Unsubscribed "Unsubscribed from task updates";
                  TaskUpdate b taskData later]))
  /\ (isOpen c = false ->
      WebSocketManager.broadcastTaskUpdate later b taskData clients !! i
      = Some c).
Proof.
  intros Hc subscribe unsubscribe subscribed unsubscribed.
  pose proof (lookup_lt_Some _ _ _ Hc) as Hi.
  split; [intros Hopen; split|intros Hclosed].
  - rewrite broadcastTaskUpdate_lookup, list_lookup_insert_eq by exact Hi.
    subst subscribed subscribe.
    unfold handleClientMessage, wants, send.
    cbn [type taskId isOpen subscription outbox fmap option_fmap option_map
         isString].
    rewrite String.eqb_refl.
    cbn [type taskId isOpen subscription outbox fmap option_fmap option_map].
    rewrite Hopen. cbn [andb].
    pose proof (wants_cases a b) as Hcases.
    destruct (isString b a || falsy a).
    + exists [TaskUpdate b taskData later]. cbn [outbox].
      split; [now rewrite <- app_assoc|]. split; [now left|].
      split; [intros _; now apply Hcases|reflexivity].
    + exists []. split; [reflexivity|]. split; [now right|].
      split; [discriminate|]. intros H. apply Hcases in H. discriminate.
  - rewrite broadcastTaskUpdate_lookup, list_lookup_insert_eq by exact Hi.
    subst unsubscribed subscribed unsubscribe subscribe.
    unfold handleClientMessage, wants, send.
    cbn [type taskId isOpen subscription outbox fmap option_fmap option_map
         isString].
    rewrite !String.eqb_refl.
    change (String.eqb "unsubscribe" "subscribe") with false.
    cbn [type taskId isOpen subscription outbox fmap option_fmap option_map
         isString falsy orb].
    rewrite Hopen. cbn [andb outbox]. now rewrite <- !app_assoc.
  - rewrite broadcastTaskUpdate_lookup, Hc. cbn. now rewrite Hclosed.
Qed.

End SocketFacts.

(** ** The status route *)

Section StatusFacts.
Import StatusRoute.

Lemma prefix_slash_cons (c : ascii) (s : string) :
  String.prefix "/" (String c s) = Ascii.eqb "/" c.
Proof.
  cbn [String.prefix]. destruct (ascii_dec "/" c) as [<-|Hne].
  - destruct s; reflexivity.
  - symmetry. apply Ascii.eqb_neq. exact Hne.
Qed.

Lemma includes_slash_cons (c : ascii) (s : string) :
  includes "/" (String c s) = Ascii.eqb "/" c || includes "/" s.
Proof. cbn [includes]. now rewrite prefix_slash_cons. Qed.

(** The pieces of a path: the last one has no slash, and the path is
    the directories, each followed by a slash, and then the last
    piece. *)
Lemma split_slash (path : string) :
  exists dirs name,
    split "/" path = dirs ++ [name]
    /\ includes "/" name = false
    /\ path = fold_right (fun d rest => d +:+ "/" +:+ rest) name dirs.
Proof.
  unfold split. induction path as [|c path (dirs & name & Hs & Hn & Hp)].
  - exists [], EmptyString. repeat split.
  - cbn [split_go]. rewrite prefix_slash_cons.
    destruct (Ascii.eqb_spec "/" c) as [<-|Hne].
    + exists (EmptyString :: dirs), name. cbn [String.length Nat.sub].
      rewrite Hs. split; [reflexivity|]. split; [exact Hn|].
      cbn [fold_right]. rewrite <- Hp. reflexivity.
    + rewrite Hs. destruct dirs as [|d dirs].
      * exists [], (String c name). cbn [app]. split; [reflexivity|].
        cbn [fold_right] in Hp. subst path. split; [|reflexivity].
        rewrite includes_slash_cons, Hn.
        now apply Ascii.eqb_neq in Hne as ->.
      * exists (String c d :: dirs), name. cbn [app]. split; [reflexivity|].
        split; [exact Hn|]. cbn [fold_right] in Hp |- *. now rewrite Hp.
Qed.

Lemma append_assoc (a b c : string) : a +:+ b +:+ c = (a +:+ b) +:+ c.
Proof.
  induction a as [|x a IH]; [reflexivity|].
  change (String x (a +:+ b +:+ c) = String x ((a +:+ b) +:+ c)).
  now rewrite IH.
Qed.

Lemma baseName_spec (path : string) :
  includes "/" (baseName path) = false
  /\ exists dir,
       path = dir +:+ baseName path
       /\ (dir = EmptyString \/ exists d, dir = d +:+ "/").
Proof.
  destruct (split_slash path) as (dirs & name & Hs & Hn & Hp).
  unfold baseName. rewrite Hs, last_snoc. cbn [default].
  split; [exact Hn|]. clear Hs. revert path Hp.
  induction dirs as [|d dirs IH]; intros path Hp.
  - exists EmptyString. split; [exact Hp|]. now left.
  - cbn [fold_right] in Hp.
    destruct (IH _ eq_refl) as (dir & Hdir & Hshape).
    exists (d +:+ "/" +:+ dir). split.
    + rewrite Hp, Hdir at 1. now rewrite <- !append_assoc.
    + right. destruct Hshape as [->|(d' & ->)].
      * exists d. now rewrite append_empty_r.
      * exists (d +:+ "/" +:+ d'). now rewrite <- !append_assoc.
Qed.

(** X26.  The status route answers 'Task not found' exactly for an id
    that is not in the registry.  For a task whose data holds a video
    path, the [filename] of the answer is the part of that path after
    its last slash: it holds no slash, and the path is a directory part,
    empty or ending in a slash, followed by it. *)
Theorem status_filename_is_base_name (taskId : string) (tasks : registry) :
  (getStatus taskId tasks = NotFound "Task not found"
   <-> tasks !! taskId = None)
  /\ forall t fields path,
       tasks !! taskId = Some t ->
       t !! "data" = Some (VObject fields) ->
       field "videoPath" fields = Some path ->
       path <> EmptyString ->
       exists name dir,
         getStatus taskId tasks
         = Found (t !! "id") (t !! "status") (t !! "progress")
             (t !! "message") (t !! "type") (Some name) (t !! "error")
             (t !! "createdAt") (t !! "updatedAt")
         /\ includes "/" name = false
         /\ path = dir +:+ name
         /\ (dir = EmptyString \/ exists d, dir = d +:+ "/").
Proof.
  unfold getStatus, getTask. split.
  - destruct (tasks !! taskId); split; intros H; try discriminate; reflexivity.
  - intros t fields path Ht Hdata Hfield Hne. rewrite Ht.
    destruct (baseName_spec path) as (Hn & dir & Hdir & Hshape).
    exists (baseName path), dir. split; [|split; [exact Hn|split; assumption]].
    unfold filenameOf. rewrite Hdata, Hfield. cbn [truthy].
    destruct (String.eqb_spec path "") as [->|_]; [contradiction|].
    reflexivity.
Qed.

End StatusFacts.

Lemma generateImage_outcome_recorded_witness :
  exists st' t',
    generateImage silent (fun _ => OtherError) "A lighthouse" "3f2a"
      (Some "image_01.png") None submitted
    = (Throws "Image generation failed", st')
    /\ tasks st' !! "3f2a" = Some t'
    /\ progressOf t' = Some 20
    /\ statusOf t' = Some "failed"
    /\ errorOf t' = Some "Image generation failed".
Proof.
  assert (Ht : exists t, tasks submitted !! "3f2a" = Some t).
  { eexists. unfold submitted, createTask, TaskManager.createTask.
    cbn [snd tasks]. apply lookup_insert_eq. }
  destruct Ht as [t Ht].
  destruct (generateImage_outcome_recorded silent (fun _ => OtherError)
              "A lighthouse" "3f2a" (Some "image_01.png") None submitted t Ht)
    as (st' & t' & Hrun & Hlook & Hprogress & Hstatus & Herror).
  exists st', t'. repeat split; assumption.
Defined.

Lemma subscription_filters_witness :
  exists updates,
    WebSocketManager.outbox <$>
      (WebSocketManager.broadcastTaskUpdate "12:00:05" "77c0" None
         (<[0%nat :=
              WebSocketManager.handleClientMessage "12:00:00"
                {| WebSocketManager.isOpen := true;
                   WebSocketManager.subscription := None;
                   WebSocketManager.outbox := [] |}
                {| WebSocketManager.type :=
                     Some (WebSocketManager.JString "subscribe");
                   WebSocketManager.taskId :=
                     Some (WebSocketManager.JNumber true "0") |}]>
            [{| WebSocketManager.isOpen := true;
                WebSocketManager.subscription := None;
                WebSocketManager.outbox := [] |}]) !! 0%nat)
    = Some ([] ++ WebSocketManager.Subscribed
                    (Some (WebSocketManager.JNumber true "0"))
                    ("Subscribed to task "
                     +:+ WebSocketManager.display
                           (Some (WebSocketManager.JNumber true "0")))
                  :: updates)
    /\ updates = [WebSocketManager.TaskUpdate "77c0" None "12:00:05"].
Proof.
  destruct (subscription_filters "12:00:00" "12:00:05"
              [{| WebSocketManager.isOpen := true;
                  WebSocketManager.subscription := None;
                  WebSocketManager.outbox := [] |}]
              0%nat _ (Some (WebSocketManager.JNumber true "0")) "77c0" None
              eq_refl) as [Hopen _].
  destruct (Hopen eq_refl) as [(updates & Hsent & _ & Hwhen) _].
  exists updates. split; [exact Hsent|].
  apply Hwhen. right. right. right. right. left. eexists. reflexivity.
Defined.

Lemma status_filename_is_base_name_witness :
  let t : task :=
    {[ "data" := VObject [("videoPath", "output/final_3f2a.mp4")] ]} in
  exists name dir,
    StatusRoute.getStatus "3f2a" {[ "3f2a" := t ]}
    = StatusRoute.Found (t !! "id") (t !! "status") (t !! "progress")
        (t !! "message") (t !! "type") (Some name) (t !! "error")
        (t !! "createdAt") (t !! "updatedAt")
    /\ includes "/" name = false
    /\ "output/final_3f2a.mp4" = dir +:+ name
    /\ (dir = EmptyString \/ exists d, dir = d +:+ "/").
Proof.
  intros t.
  destruct (status_filename_is_base_name "3f2a" {[ "3f2a" := t ]})
    as [_ Hname].
  apply (Hname t [("videoPath", "output/final_3f2a.mp4")]
           "output/final_3f2a.mp4").
  - apply lookup_singleton_eq.
  - apply lookup_singleton_eq.
  - reflexivity.
  - discriminate.
Defined.
